(** * ChatbotInterface: the chat session lifecycle of the MedAssist widget

    A shallow embedding of [src/components/chatbot/ChatbotInterface.tsx].

    The React component is modelled as a record holding its four state cells
    ([input], [messages], [isLoading], [sessionId]) together with the parts of
    the environment its handlers touch: [localStorage], the edge-function
    invocations issued so far, the toasts shown, the console, and the
    asynchronous handlers suspended at an [await].

    Every handler runs to its next [await]; the promise it waits on is settled
    later by an event of its own, so that other events can interleave exactly
    where the source allows it.  A handler started by a user event reads the
    state cells of the render in which it was created: these closure values
    are stored in the suspended task and are not refreshed by later
    [setMessages] calls, as in the source.

    Strings are sequences of code units below 256; an instant ([Date.now()],
    [new Date()]) is a number of milliseconds. *)

From Stdlib Require Import Ascii String ZArith DecimalString DecimalPos DecimalZ.
From stdpp Require Import base list strings gmap.

Local Open Scope string_scope.
Local Open Scope Z_scope.
Local Open Scope list_scope.

(** ** Data model *)

Inductive Role := user | bot.

Record Message := {
  id : string;
  content : string;
  role : Role;
  timestamp : Z;
}.

(** The entries sent to the completion function: [{ role, content }]. *)
Record ContextEntry := {
  entry_role : Role;
  entry_content : string;
}.

Record Toast := {
  title : string;
  description : string;
  destructive : bool;
}.

(** What the component receives from outside: the optional [closeChat] prop
    (whether it was supplied), [useIsMobile ()], and the instant at which the
    module was loaded, which stamps [initialMessages]. *)
Record Env := {
  closeChat : bool;
  isMobile : bool;
  loadedAt : Z;
}.

(** [supabase.functions.invoke (name, { body })], by function and action. *)
Inductive Call :=
  | getSession (sessionId : string)
  | saveSession (sessionId : string) (messages : list Message)
  | saveMessage (sessionId : string) (message : Message)
  | endSession (sessionId : string)
  | geminiHealthChat (prompt : string) (previousMessages : list ContextEntry).

(** The [data] field of a settled invocation, as far as the handlers read it:
    [data.data.messages] and [data.generatedText]. *)
Inductive Data :=
  | NoData
  | SessionDoc (messages : option (list Message))
  | Generation (generatedText : option string).

(** An invocation either rejects (the [await] throws) or resolves to
    [{ data, error }]. *)
Inductive Response :=
  | Rejects
  | Resolves (error : bool) (data : Data).

(** Suspended [initSession]: at the [getSession] await or at the
    [saveSession] await. *)
Inductive InitTask :=
  | initSession_getSession (newSessionId : string)
  | initSession_saveSession.

(** Suspended [handleSend], with the closure values still needed:
    at [await saveMessageToMongoDB (userMessage)], at the completion
    [await], and at the last [await saveMessageToMongoDB] before [finally]. *)
Inductive SendTask :=
  | handleSend_saveUser (input : string) (messages : list Message) (sessionId : string)
  | handleSend_invoke (sessionId : string)
  | handleSend_saveReply.

Record Component := {
  env : Env;
  mounted : bool;
  input : string;
  messages : list Message;
  isLoading : bool;
  sessionId : string;
  localStorage : gmap string string;
  invoked : list Call;
  toasts : list Toast;
  console : list string;
  closeChatCalls : nat;
  initTask : option InitTask;
  sendTasks : list SendTask;
  endTasks : nat;
}.

(** ** Constants of the module *)

Definition session_key : string := "medassist_session_id".

Definition initialMessages (loaded : Z) : list Message :=
  [ {| id := "1";
       content := "Hi there! I'm MedAssist, your Indian healthcare assistant. I can help with health questions, suggest appropriate specialists in India, and provide information about medications available here. How can I help you today?";
       role := bot;
       timestamp := loaded |} ].

Definition suggestedQueries : list string :=
  [ "What specialist should I see for joint pain in India?";
    "Are Ayurvedic remedies effective for digestive issues?";
    "Common symptoms of dengue fever?" ].

Definition fallbackText : string := "I'm sorry, I couldn't process your request.".

Definition errorText : string :=
  "I'm having trouble connecting right now. Please try again later.".

Definition chatEndedToast : Toast :=
  {| title := "Chat ended";
     description := "Your conversation has been deleted.";
     destructive := false |}.

Definition endFailedToast : Toast :=
  {| title := "Error";
     description := "Failed to end chat session properly.";
     destructive := true |}.

Definition noResponseToast : Toast :=
  {| title := "Error";
     description := "Couldn't get a response. Please try again later.";
     destructive := true |}.

(** ** String helpers *)

(** [String.prototype.trim]: the white space and line terminators among the
    code units below 256. *)
Definition isWhiteSpace (c : ascii) : bool :=
  match nat_of_ascii c with
  | 9%nat | 10%nat | 11%nat | 12%nat | 13%nat | 32%nat | 160%nat => true
  | _ => false
  end.

Fixpoint trimStart (s : string) : string :=
  match s with
  | EmptyString => EmptyString
  | String c r => if isWhiteSpace c then trimStart r else s
  end.

Fixpoint trimEnd (s : string) : string :=
  match s with
  | EmptyString => EmptyString
  | String c r =>
      match trimEnd r with
      | EmptyString => if isWhiteSpace c then EmptyString else String c EmptyString
      | r' => String c r'
      end
  end.

Definition trim (s : string) : string := trimEnd (trimStart s).

(** Truthiness of a string: only the empty string is falsy. *)
Definition truthy (s : string) : bool :=
  match s with EmptyString => false | _ => true end.

(** [n.toString ()] for an integer [n]. *)
Definition toString (n : Z) : string := NilZero.string_of_int (Z.to_int n).

(** Truthiness of a string that may be [null] or [undefined]. *)
Definition truthy_opt (a : option string) : bool :=
  match a with Some t => truthy t | None => false end.

(** [a || b] on such a value. *)
Definition orElse (a : option string) (b : string) : string :=
  match a with
  | Some t => if truthy t then t else b
  | None => b
  end.

Global Arguments toString : simpl never.
Global Arguments trim : simpl never.

(** ** The context window *)

(** [l.slice (-n)]: the start index is [max (length + (-n)) 0]. *)
Definition slice_last {A} (n : nat) (l : list A) : list A :=
  drop (length l - n) l.

Definition toEntry (msg : Message) : ContextEntry :=
  {| entry_role := role msg; entry_content := content msg |}.

(** [messages.slice (-10).map (msg => ({ role, content }))]. *)
Definition previousMessages (msgs : list Message) : list ContextEntry :=
  toEntry <$> slice_last 10 msgs.

(** ** State updates *)

Definition setMounted (v : bool) (s : Component) : Component :=
  Build_Component (env s) v (input s) (messages s) (isLoading s) (sessionId s)
    (localStorage s) (invoked s) (toasts s) (console s) (closeChatCalls s)
    (initTask s) (sendTasks s) (endTasks s).

Definition setInput (v : string) (s : Component) : Component :=
  Build_Component (env s) (mounted s) v (messages s) (isLoading s) (sessionId s)
    (localStorage s) (invoked s) (toasts s) (console s) (closeChatCalls s)
    (initTask s) (sendTasks s) (endTasks s).

Definition setMessages (v : list Message) (s : Component) : Component :=
  Build_Component (env s) (mounted s) (input s) v (isLoading s) (sessionId s)
    (localStorage s) (invoked s) (toasts s) (console s) (closeChatCalls s)
    (initTask s) (sendTasks s) (endTasks s).

Definition setIsLoading (v : bool) (s : Component) : Component :=
  Build_Component (env s) (mounted s) (input s) (messages s) v (sessionId s)
    (localStorage s) (invoked s) (toasts s) (console s) (closeChatCalls s)
    (initTask s) (sendTasks s) (endTasks s).

Definition setSessionId (v : string) (s : Component) : Component :=
  Build_Component (env s) (mounted s) (input s) (messages s) (isLoading s) v
    (localStorage s) (invoked s) (toasts s) (console s) (closeChatCalls s)
    (initTask s) (sendTasks s) (endTasks s).

Definition setLocalStorage (v : gmap string string) (s : Component) : Component :=
  Build_Component (env s) (mounted s) (input s) (messages s) (isLoading s) (sessionId s)
    v (invoked s) (toasts s) (console s) (closeChatCalls s)
    (initTask s) (sendTasks s) (endTasks s).

Definition setInvoked (v : list Call) (s : Component) : Component :=
  Build_Component (env s) (mounted s) (input s) (messages s) (isLoading s) (sessionId s)
    (localStorage s) v (toasts s) (console s) (closeChatCalls s)
    (initTask s) (sendTasks s) (endTasks s).

Definition setToasts (v : list Toast) (s : Component) : Component :=
  Build_Component (env s) (mounted s) (input s) (messages s) (isLoading s) (sessionId s)
    (localStorage s) (invoked s) v (console s) (closeChatCalls s)
    (initTask s) (sendTasks s) (endTasks s).

Definition setConsole (v : list string) (s : Component) : Component :=
  Build_Component (env s) (mounted s) (input s) (messages s) (isLoading s) (sessionId s)
    (localStorage s) (invoked s) (toasts s) v (closeChatCalls s)
    (initTask s) (sendTasks s) (endTasks s).

Definition setCloseChatCalls (v : nat) (s : Component) : Component :=
  Build_Component (env s) (mounted s) (input s) (messages s) (isLoading s) (sessionId s)
    (localStorage s) (invoked s) (toasts s) (console s) v
    (initTask s) (sendTasks s) (endTasks s).

Definition setInitTask (v : option InitTask) (s : Component) : Component :=
  Build_Component (env s) (mounted s) (input s) (messages s) (isLoading s) (sessionId s)
    (localStorage s) (invoked s) (toasts s) (console s) (closeChatCalls s)
    v (sendTasks s) (endTasks s).

Definition setSendTasks (v : list SendTask) (s : Component) : Component :=
  Build_Component (env s) (mounted s) (input s) (messages s) (isLoading s) (sessionId s)
    (localStorage s) (invoked s) (toasts s) (console s) (closeChatCalls s)
    (initTask s) v (endTasks s).

Definition setEndTasks (v : nat) (s : Component) : Component :=
  Build_Component (env s) (mounted s) (input s) (messages s) (isLoading s) (sessionId s)
    (localStorage s) (invoked s) (toasts s) (console s) (closeChatCalls s)
    (initTask s) (sendTasks s) v.

(** Statements of a handler, read left to right. *)
Notation "s |> f" := (f s) (at level 45, left associativity, only parsing).

(** [setMessages ((prev) => [...prev, m])]: the update is applied to the
    state cell as it is when the update runs. *)
Definition appendMessage (m : Message) (s : Component) : Component :=
  setMessages (messages s ++ [m]) s.

Definition invoke (c : Call) (s : Component) : Component :=
  setInvoked (invoked s ++ [c]) s.

Definition toast (t : Toast) (s : Component) : Component :=
  setToasts (toasts s ++ [t]) s.

Definition console_error (msg : string) (s : Component) : Component :=
  setConsole (console s ++ [msg]) s.

(** ** Handlers *)

(** The component before its mount effect has run: [useState] initial values. *)
Definition initial (e : Env) (storage : gmap string string) : Component :=
  {| env := e; mounted := false; input := EmptyString; messages := initialMessages (loadedAt e);
     isLoading := false; sessionId := EmptyString; localStorage := storage;
     invoked := []; toasts := []; console := []; closeChatCalls := 0;
     initTask := None; sendTasks := []; endTasks := 0 |}.

(** Lines 55-60: [storedSessionId || uuidv4 ()], persisted when nothing
    truthy was stored.  [uuid] is the value [uuidv4 ()] returns. *)
Definition resolveSessionId (uuid : string) (storage : gmap string string)
  : string * gmap string string :=
  let storedSessionId := storage !! session_key in
  let newSessionId := orElse storedSessionId uuid in
  if negb (truthy_opt storedSessionId)
  then (newSessionId, <[session_key := newSessionId]> storage)
  else (newSessionId, storage).

(** [initSession], up to [await invoke (getSession)]. *)
Definition initSession (uuid : string) (s : Component) : Component :=
  let '(newSessionId, storage) := resolveSessionId uuid (localStorage s) in
  s |> setLocalStorage storage
    |> setSessionId newSessionId
    |> invoke (getSession newSessionId)
    |> setInitTask (Some (initSession_getSession newSessionId)).

(** [initSession], resumed when the awaited invocation settles. *)
Definition initSession_resume (t : InitTask) (r : Response) (s : Component) : Component :=
  match t with
  | initSession_getSession newSessionId =>
      match r with
      | Rejects =>
          s |> console_error "Error initializing chat session:" |> setInitTask None
      | Resolves true _ =>
          s |> console_error "Error fetching session:" |> setInitTask None
      | Resolves false (SessionDoc (Some (m :: l))) =>
          s |> setMessages (m :: l) |> setInitTask None
      | Resolves false (SessionDoc _) =>
          if (0 <? length (initialMessages (loadedAt (env s))))%nat
          then s |> invoke (saveSession newSessionId (initialMessages (loadedAt (env s))))
                 |> setInitTask (Some initSession_saveSession)
          else s |> setInitTask None
      | Resolves false _ =>
          s |> console_error "Error initializing chat session:" |> setInitTask None
      end
  | initSession_saveSession =>
      match r with
      | Rejects =>
          s |> console_error "Error initializing chat session:" |> setInitTask None
      | Resolves _ _ => s |> setInitTask None
      end
  end.

(** [saveMessageToMongoDB] after its [await]: a rejection is logged and
    swallowed, the resolved value is not read. *)
Definition saveMessageToMongoDB_settled (r : Response) (s : Component) : Component :=
  match r with
  | Rejects => s |> console_error "Error saving message to MongoDB:"
  | Resolves _ _ => s
  end.

(** [handleSend], up to [await saveMessageToMongoDB (userMessage)].  [now] is
    [Date.now ()], [date] is [new Date ()]. *)
Definition handleSend (now date : Z) (s : Component) : Component :=
  if negb (truthy (trim (input s))) then s
  else
    let userMessage :=
      {| id := toString now; content := input s; role := user; timestamp := date |} in
    s |> appendMessage userMessage
      |> setInput EmptyString
      |> setIsLoading true
      |> invoke (saveMessage (sessionId s) userMessage)
      |> setSendTasks
           (sendTasks s ++ [handleSend_saveUser (input s) (messages s) (sessionId s)]).

(** What the [try] block obtains from the completion: [None] when it throws
    (rejection, [error] set, or [data] null), otherwise [data.generatedText]. *)
Definition generated (r : Response) : option (option string) :=
  match r with
  | Rejects => None
  | Resolves true _ => None
  | Resolves false NoData => None
  | Resolves false (Generation t) => Some t
  | Resolves false (SessionDoc _) => Some None
  end.

Definition botMessage (now date : Z) (generatedText : option string) : Message :=
  {| id := toString (now + 1); content := orElse generatedText fallbackText;
     role := bot; timestamp := date |}.

Definition errorMessage (now date : Z) : Message :=
  {| id := toString (now + 1); content := errorText; role := bot; timestamp := date |}.

(** [handleSend], resumed at task [k] when the awaited promise settles. *)
Definition handleSend_resume (k : nat) (t : SendTask) (r : Response) (now date : Z)
    (s : Component) : Component :=
  match t with
  | handleSend_saveUser input0 messages0 sessionId0 =>
      s |> saveMessageToMongoDB_settled r
        |> invoke (geminiHealthChat input0 (previousMessages messages0))
        |> setSendTasks (<[k := handleSend_invoke sessionId0]> (sendTasks s))
  | handleSend_invoke sessionId0 =>
      match generated r with
      | Some generatedText =>
          s |> appendMessage (botMessage now date generatedText)
            |> invoke (saveMessage sessionId0 (botMessage now date generatedText))
            |> setSendTasks (<[k := handleSend_saveReply]> (sendTasks s))
      | None =>
          s |> console_error "Error getting response:"
            |> toast noResponseToast
            |> appendMessage (errorMessage now date)
            |> invoke (saveMessage sessionId0 (errorMessage now date))
            |> setSendTasks (<[k := handleSend_saveReply]> (sendTasks s))
      end
  | handleSend_saveReply =>
      s |> saveMessageToMongoDB_settled r
        |> setIsLoading false
        |> setSendTasks (delete k (sendTasks s))
  end.

(** [endChat], up to [await invoke (endSession)]. *)
Definition endChat (s : Component) : Component :=
  s |> invoke (endSession (sessionId s)) |> setEndTasks (S (endTasks s)).

(** [endChat], resumed: the [try] continuation, or the [catch] block when the
    invocation rejects. *)
Definition endChat_resume (r : Response) (s : Component) : Component :=
  match r with
  | Resolves _ _ =>
      s |> setLocalStorage (delete session_key (localStorage s))
        |> setCloseChatCalls (if closeChat (env s) then S (closeChatCalls s)
                              else closeChatCalls s)
        |> toast chatEndedToast
        |> setEndTasks (pred (endTasks s))
  | Rejects =>
      s |> console_error "Error ending chat session:"
        |> toast endFailedToast
        |> setEndTasks (pred (endTasks s))
  end.

Definition handleSuggestedQuery (query : string) (s : Component) : Component :=
  s |> setInput query.

(** ** What is rendered *)

(** [disabled={isLoading}] on the textarea. *)
Definition textarea_disabled (s : Component) : bool := isLoading s.

(** [disabled={isLoading || !input.trim ()}] on the send button. *)
Definition sendButton_disabled (s : Component) : bool :=
  isLoading s || negb (truthy (trim (input s))).

(** [messages.length <= 1 && !isLoading]. *)
Definition suggestions_shown (s : Component) : bool :=
  (length (messages s) <=? 1)%nat && negb (isLoading s).

(** [isMobile && closeChat]. *)
Definition closeButton_shown (s : Component) : bool :=
  isMobile (env s) && closeChat (env s).

(** ** Events *)

Inductive Event :=
  | Mount (uuid : string)
  | Change (value : string)
  | KeyEnter (now date : Z)
  | ClickSend (now date : Z)
  | ClickSuggested (index : nat)
  | ClickEndChat
  | ClickClose
  | SettleInit (r : Response)
  | SettleSend (k : nat) (r : Response) (now date : Z)
  | SettleEnd (r : Response).

(** One event on the mounted component; [None] when the event cannot occur
    (the control is disabled or not rendered, or no such promise is pending). *)
Definition dispatch (e : Event) (s : Component) : option Component :=
  match e with
  | Mount _ => None
  | Change value =>
      if textarea_disabled s then None else Some (setInput value s)
  | KeyEnter now date =>
      if textarea_disabled s then None else Some (handleSend now date s)
  | ClickSend now date =>
      if sendButton_disabled s then None else Some (handleSend now date s)
  | ClickSuggested index =>
      if suggestions_shown s
      then query ← suggestedQueries !! index; Some (handleSuggestedQuery query s)
      else None
  | ClickEndChat => Some (endChat s)
  | ClickClose =>
      if closeButton_shown s
      then Some (setCloseChatCalls (S (closeChatCalls s)) s)
      else None
  | SettleInit r =>
      t ← initTask s; Some (initSession_resume t r s)
  | SettleSend k r now date =>
      t ← sendTasks s !! k; Some (handleSend_resume k t r now date s)
  | SettleEnd r =>
      match endTasks s with
      | O => None
      | S _ => Some (endChat_resume r s)
      end
  end.

Definition step (e : Event) (s : Component) : option Component :=
  match e with
  | Mount uuid =>
      if mounted s then None else Some (s |> setMounted true |> initSession uuid)
  | _ => if mounted s then dispatch e s else None
  end.

Fixpoint run (trace : list Event) (s : Component) : option Component :=
  match trace with
  | [] => Some s
  | e :: rest => s' ← step e s; run rest s'
  end.

(** States the component can be in: any run from its first render. *)
Definition reachable (s : Component) : Prop :=
  ∃ e storage trace, run trace (initial e storage) = Some s.

(** ** Vocabulary of the properties *)


(** The hydration fetch is no longer pending. *)
Definition hydrated (s : Component) : Prop :=
  mounted s = true ∧ ∀ sid, initTask s ≠ Some (initSession_getSession sid).

(** A user turn: the text typed, how it is submitted, the clock readings of
    [handleSend], and how the three invocations of the turn settle. *)
Record Turn := {
  turn_input : string;
  turn_byKey : bool;
  turn_now : Z;
  turn_date : Z;
  turn_userSaved : Response;
  turn_completion : Response;
  turn_replyNow : Z;
  turn_replyDate : Z;
  turn_replySaved : Response;
}.

(** The events of a turn when no other submission is pending. *)
Definition turn_events (t : Turn) : list Event :=
  [ Change (turn_input t);
    (if turn_byKey t then KeyEnter (turn_now t) (turn_date t)
     else ClickSend (turn_now t) (turn_date t));
    SettleSend 0 (turn_userSaved t) (turn_now t) (turn_date t);
    SettleSend 0 (turn_completion t) (turn_replyNow t) (turn_replyDate t);
    SettleSend 0 (turn_replySaved t) (turn_replyNow t) (turn_replyDate t) ].

(** The messages a turn with a successful completion contributes. *)
Definition turn_messages (t : Turn) : list Message :=
  [ {| id := toString (turn_now t); content := turn_input t; role := user;
       timestamp := turn_date t |};
    botMessage (turn_replyNow t) (turn_replyDate t)
      (default None (generated (turn_completion t))) ].

(** A non-blank submission whose completion succeeds. *)
Definition turn_ok (t : Turn) : Prop :=
  trim (turn_input t) ≠ EmptyString ∧ is_Some (generated (turn_completion t)).

(** Either nothing is being sent, or the component is loading with an empty
    input and exactly one suspended [handleSend]. *)
Definition single_flight (s : Component) : Prop :=
  (isLoading s = false ∧ sendTasks s = [])
  ∨ (isLoading s = true ∧ input s = EmptyString ∧ ∃ t, sendTasks s = [t]).

(** ** Sample sessions *)

Definition after (trace : list Event) (s : Component) : Component :=
  default s (run trace s).

Definition sample_env : Env :=
  {| closeChat := false; isMobile := false; loadedAt := 0 |}.

(** First load on a device with nothing stored, the remote store empty. *)
Definition sample_hydration : list Event :=
  [ Mount "u1";
    SettleInit (Resolves false (SessionDoc (Some [])));
    SettleInit (Resolves false NoData) ].

Definition sample_idle : Component :=
  after sample_hydration (initial sample_env ∅).

Definition sample_userMessage : Message :=
  {| id := "100"; content := "hello"; role := user; timestamp := 101 |}.

Definition sample_botMessage : Message :=
  {| id := "201"; content := "answer"; role := bot; timestamp := 202 |}.

Definition sample_stored : Message :=
  {| id := "7"; content := "stored"; role := bot; timestamp := 3 |}.

(** "hello" typed, not yet sent. *)
Definition sample_typed : Component := after [Change "hello"] sample_idle.

(** "   " typed. *)
Definition sample_blank : Component := after [Change "   "] sample_idle.

(** "hello" sent, the user message saved, the completion outstanding. *)
Definition sample_awaiting : Component :=
  after [ClickSend 100 101; SettleSend 0 (Resolves false NoData) 100 101] sample_typed.

(** "End Chat" clicked, its invocation pending. *)
Definition sample_ending : Component := after [ClickEndChat] sample_idle.

Definition sample_turn (text : string) (now : Z) : Turn :=
  {| turn_input := text; turn_byKey := false; turn_now := now; turn_date := now + 1;
     turn_userSaved := Resolves false NoData;
     turn_completion := Resolves false (Generation (Some "answer"));
     turn_replyNow := now + 100; turn_replyDate := now + 102;
     turn_replySaved := Resolves false NoData |}.

(** ** Vocabulary of the session properties *)

(** The session id an invocation of the session store carries. *)
Definition call_session (c : Call) : option string :=
  match c with
  | getSession sid | saveSession sid _ | saveMessage sid _ | endSession sid => Some sid
  | geminiHealthChat _ _ => None
  end.

(** The session id a suspended [handleSend] still holds in its closure. *)
Definition task_session (t : SendTask) : option string :=
  match t with
  | handleSend_saveUser _ _ sid | handleSend_invoke sid => Some sid
  | handleSend_saveReply => None
  end.

(** Before the mount effect nothing has been invoked or suspended; after it,
    every invocation issued and every suspended handler holds the session id
    of the component. *)
Definition session_bound (s : Component) : Prop :=
  if mounted s
  then Forall (λ c, ∀ sid, call_session c = Some sid → sid = sessionId s) (invoked s)
       ∧ Forall (λ t, ∀ sid, task_session t = Some sid → sid = sessionId s) (sendTasks s)
       ∧ (∀ sid, initTask s = Some (initSession_getSession sid) → sid = sessionId s)
  else invoked s = [] ∧ sendTasks s = [] ∧ initTask s = None.

(** While mounted, the stored session id is the id of the component, until
    an [endChat] has run to its "Chat ended" toast. *)
Definition id_kept (s : Component) : Prop :=
  mounted s = true →
  localStorage s !! session_key = Some (sessionId s)
  ∨ (localStorage s !! session_key = None ∧ chatEndedToast ∈ toasts s).

(** The hydration fetch leaves the [try] block without a session document:
    it rejects, resolves with [error] set, or resolves with data that has no
    [data.data] object. *)
Definition hydration_failed (r : Response) : bool :=
  match r with
  | Resolves false (SessionDoc _) => false
  | _ => true
  end.

(** Every code unit of the string is white space. *)
Definition blank (t : string) : Prop :=
  ∀ c, c ∈ list_ascii_of_string t → isWhiteSpace c = true.

(** A message says something: a user message is not blank, a message of the
    assistant is not empty. *)
Definition said (m : Message) : Prop :=
  match role m with
  | user => trim (content m) ≠ EmptyString
  | bot => content m ≠ EmptyString
  end.

(** The reply a turn appends: the generated text or its fallback when the
    completion succeeds, the fixed error message when it fails. *)
Definition turn_reply (t : Turn) : Message :=
  match generated (turn_completion t) with
  | Some generatedText => botMessage (turn_replyNow t) (turn_replyDate t) generatedText
  | None => errorMessage (turn_replyNow t) (turn_replyDate t)
  end.

(** The submission of a turn and the settling of its three invocations. *)
Definition turn_user (t : Turn) : Message :=
  {| id := toString (turn_now t); content := turn_input t; role := user;
     timestamp := turn_date t |}.

(** * SampleAppointmentsSetup: creating a sample appointment

    [createSampleAppointment] is the only handler of its component and its
    button is disabled while it runs, so it is modelled as one function from
    the outcomes of the calls it awaits to the state it ends in and the
    effects it has had. *)

Module SampleAppointmentsSetup.

(** The row passed to [supabase.from ('appointments').insert]. *)
Record Appointment := {
  doctor_name : string;
  hospital : string;
  appointment_date : string;
  status : string;
  user_id : string;
}.

(** Calls on [supabase.auth]. *)
Inductive AuthCall :=
  | getSession
  | signInWithPassword (email password : string)
  | signOut.

(** An awaited call rejects with an error, whose [message] is kept, or
    resolves. *)
Inductive Settled (A : Type) :=
  | Rejected (message : string)
  | Resolved (a : A).
Arguments Rejected {A} message.
Arguments Resolved {A} a.

(** What the handler meets: [tomorrowDate.toISOString ()] and
    [format (tomorrowDate, 'PPP')] for the date it computes, and how each
    awaited call settles - the id of [sessionData.session?.user] if there
    is one, the [error] of the insert and its message if there is one,
    [authError] and the id of [authData.user], and the sign-out. *)
Record World := {
  tomorrowISO : string;
  tomorrowPPP : string;
  sessionUser : Settled (option string);
  insertError : Settled (option string);
  signedIn : Settled (bool * option string);
  signedOut : Settled unit;
}.

Record Setup := {
  isLoading : bool;
  isCreated : bool;
  authCalls : list AuthCall;
  inserts : list Appointment;
  toasts : list Toast;
  console : list string;
}.

Definition mounted : Setup :=
  {| isLoading := false; isCreated := false; authCalls := []; inserts := [];
     toasts := []; console := [] |}.

Definition placeholderId : string := "00000000-0000-0000-0000-000000000000".

Definition appointmentData (w : World) (userId : string) : Appointment :=
  {| doctor_name := "Dr. Sample"; hospital := "General Hospital";
     appointment_date := tomorrowISO w; status := "confirmed";
     user_id := userId |}.

Definition createdForAccount (w : World) : Toast :=
  {| title := "Sample appointment created!";
     description := "Appointment on " +:+ tomorrowPPP w
                    +:+ " has been added to the database for your account.";
     destructive := false |}.

Definition createdWithPlaceholder : Toast :=
  {| title := "Sample appointment created";
     description := "Created with placeholder ID. Create sample accounts first for better testing.";
     destructive := false |}.

Definition createdForSamplePatient (w : World) : Toast :=
  {| title := "Sample appointment created!";
     description := "Appointment on " +:+ tomorrowPPP w
                    +:+ " has been added for the sample patient.";
     destructive := false |}.

(** [error.message || "There was an error ..."]. *)
Definition errorToast (message : string) : Toast :=
  {| title := "Error creating appointment";
     description := orElse (Some message)
                      "There was an error creating the sample appointment.";
     destructive := true |}.

Definition setIsLoading (v : bool) (s : Setup) : Setup :=
  Build_Setup v (isCreated s) (authCalls s) (inserts s) (toasts s) (console s).

Definition setIsCreated (v : bool) (s : Setup) : Setup :=
  Build_Setup (isLoading s) v (authCalls s) (inserts s) (toasts s) (console s).

Definition auth (c : AuthCall) (s : Setup) : Setup :=
  Build_Setup (isLoading s) (isCreated s) (authCalls s ++ [c]) (inserts s)
    (toasts s) (console s).

Definition insert (row : Appointment) (s : Setup) : Setup :=
  Build_Setup (isLoading s) (isCreated s) (authCalls s) (inserts s ++ [row])
    (toasts s) (console s).

Definition toast (t : Toast) (s : Setup) : Setup :=
  Build_Setup (isLoading s) (isCreated s) (authCalls s) (inserts s)
    (toasts s ++ [t]) (console s).

Definition console_error (line : string) (s : Setup) : Setup :=
  Build_Setup (isLoading s) (isCreated s) (authCalls s) (inserts s)
    (toasts s) (console s ++ [line]).

(** The insert and [if (insertError) throw insertError]: the state after
    the call, or the state and the message of what is thrown. *)
Definition insertOrThrow (w : World) (userId : string) (s : Setup)
  : Setup + Setup * string :=
  let s := insert (appointmentData w userId) s in
  match insertError w with
  | Rejected message => inr (s, message)
  | Resolved (Some message) => inr (s, message)
  | Resolved None => inl s
  end.

(** The [try] block: the state it ends in, or the state and the message of
    what it throws. *)
Definition tryBlock (w : World) (s : Setup) : Setup + Setup * string :=
  let s := auth getSession s in
  match sessionUser w with
  | Rejected message => inr (s, message)
  | Resolved (Some userId) =>
      match insertOrThrow w userId s with
      | inr thrown => inr thrown
      | inl s => inl (s |> toast (createdForAccount w) |> setIsCreated true)
      end
  | Resolved None =>
      let s := auth (signInWithPassword "patient@example.com" "Password123") s in
      match signedIn w with
      | Rejected message => inr (s, message)
      | Resolved (false, Some userId) =>
          match insertOrThrow w userId s with
          | inr thrown => inr thrown
          | inl s =>
              let s := auth signOut s in
              match signedOut w with
              | Rejected message => inr (s, message)
              | Resolved _ =>
                  inl (s |> toast (createdForSamplePatient w) |> setIsCreated true)
              end
          end
      | Resolved _ =>
          match insertOrThrow w placeholderId s with
          | inr thrown => inr thrown
          | inl s => inl (s |> toast createdWithPlaceholder |> setIsCreated true)
          end
      end
  end.

(** [createSampleAppointment]: [setIsLoading (true)], the [try] block, the
    [catch] block when it throws, and [finally]. *)
Definition createSampleAppointment (w : World) (s : Setup) : Setup :=
  match tryBlock w (setIsLoading true s) with
  | inl s => s |> setIsLoading false
  | inr (s, message) =>
      s |> console_error "Error creating sample appointment:"
        |> toast (errorToast message)
        |> setIsLoading false
  end.

(** The row reached the table: the insert resolved without an error. *)
Definition stored (w : World) : bool :=
  match insertError w with Resolved None => true | _ => false end.

(** The user the appointment is created for. *)
Definition owner (w : World) : option string :=
  match sessionUser w with
  | Rejected _ => None
  | Resolved (Some userId) => Some userId
  | Resolved None =>
      match signedIn w with
      | Rejected _ => None
      | Resolved (false, Some userId) => Some userId
      | Resolved _ => Some placeholderId
      end
  end.

End SampleAppointmentsSetup.

(** * BookAppointment: time slots, clock times and fees

    The computations of the booking page on strings and numbers.  A number
    is an integer; the page only forms numbers far below 2^53, where the
    numbers of the source are exact. *)

Module BookAppointment.

Record Slot := {
  time : string;
  available : bool;
}.

(** The template of a slot label:
    [`${hour > 12 ? hour - 12 : hour}:${minutes} ${hour >= 12 ? 'PM' : 'AM'}`]. *)
Definition slotTime (hour : Z) (minutes : string) : string :=
  toString (if 12 <? hour then hour - 12 else hour)
    +:+ ":" +:+ minutes +:+ " " +:+ (if 12 <=? hour then "PM" else "AM").

(** [generateTimeSlots]: two slots for every hour from 9 to 17.
    [isAvailable i] is the outcome of the test [Math.random () > 0.3] made
    for the slot pushed at index [i]. *)
Definition generateTimeSlots (isAvailable : nat → bool) : list Slot :=
  imap (λ i '(hour, minutes),
          {| time := slotTime hour minutes; available := isAvailable i |})
       (hour ← seqZ 9 9; minutes ← ["00"; "30"]; [(hour, minutes)]).

(** [t.split (sep)] for a separator of one code unit. *)
Fixpoint split (sep : ascii) (t : string) : list string :=
  match t with
  | EmptyString => [EmptyString]
  | String c r =>
      if Ascii.eqb c sep then EmptyString :: split sep r
      else match split sep r with
           | piece :: pieces => String c piece :: pieces
           | [] => [String c EmptyString]
           end
  end.

(** [t.includes (sub)]. *)
Fixpoint includes (sub t : string) : bool :=
  String.prefix sub t
  || match t with
     | EmptyString => false
     | String _ r => includes sub r
     end.

(** The value of a digit in the given radix, if it is one. *)
Definition digitValue (radix : Z) (c : ascii) : option Z :=
  let n := Z.of_nat (nat_of_ascii c) in
  let v := if (48 <=? n) && (n <=? 57) then Some (n - 48)
           else if (97 <=? n) && (n <=? 122) then Some (n - 87)
           else if (65 <=? n) && (n <=? 90) then Some (n - 55)
           else None in
  v ≫= λ d, if d <? radix then Some d else None.

(** The number written by the longest prefix of digits, [None] when the
    prefix is empty. *)
Fixpoint digits (radix : Z) (t : string) (acc : option Z) : option Z :=
  match t with
  | EmptyString => acc
  | String c r =>
      match digitValue radix c with
      | Some d => digits radix r (Some (radix * default 0 acc + d))
      | None => acc
      end
  end.

(** [parseInt (t)] without a radix; [None] is [NaN], and an [undefined]
    argument is read as the string "undefined". *)
Definition parseInt (t : option string) : option Z :=
  let t := trimStart (default "undefined" t) in
  let '(sign, t) :=
    match t with
    | String "-" r => (-1, r)
    | String "+" r => (1, r)
    | _ => (1, t)
    end in
  let '(radix, t) :=
    match t with
    | String "0" (String "x" r) | String "0" (String "X" r) => (16, r)
    | _ => (10, t)
    end in
  (λ n, sign * n) <$> digits radix t None.

(** The hour and the minutes [handlePayment] passes to [setHours] for the
    label of the selected slot. *)
Definition appointmentClock (label : string) : option Z * option Z :=
  let parts := split ":" (default EmptyString (head (split " " label))) in
  let hours := parts !! 0%nat in
  let minutes := parts !! 1%nat in
  let isPM := includes "PM" label in
  let hour := parseInt hours in
  let hour := if isPM && negb (bool_decide (hour = Some 12))
              then (λ h, h + 12) <$> hour else hour in
  let hour := if negb isPM && bool_decide (hour = Some 12)
              then Some 0 else hour in
  (hour, parseInt minutes).

(** A decimal digit. *)
Definition isDigit (c : ascii) : bool :=
  let n := nat_of_ascii c in (48 <=? n)%nat && (n <=? 57)%nat.

(** [t.replace (/[^0-9]/g, '')]. *)
Fixpoint keepDigits (t : string) : string :=
  match t with
  | EmptyString => EmptyString
  | String c r => if isDigit c then String c (keepDigits r) else keepDigits r
  end.

(** [t.substring (1)]. *)
Definition substring1 (t : string) : string :=
  match t with
  | EmptyString => EmptyString
  | String _ r => r
  end.

(** [parseInt (doctor.fee.replace (/[^0-9]/g, ''))]: the fee passed to the
    payment and stored as [fee_amount]. *)
Definition feeAmount (fee : string) : option Z := parseInt (Some (keepDigits fee)).

(** [amount * 100], the amount of the Razorpay order. *)
Definition orderAmount (fee : string) : option Z := (λ amount, amount * 100) <$> feeAmount fee.

(** A number in a template literal. *)
Definition shown (n : option Z) : string :=
  match n with
  | Some n => toString n
  | None => "NaN"
  end.

(** The total shown in the payment dialog for a consultation type. *)
Definition totalAmount (consultationType fee : string) : string :=
  if String.eqb consultationType "in-person" then fee
  else if String.eqb consultationType "video"
  then "$" +:+ shown ((λ n, n - 30) <$> parseInt (Some (substring1 fee)))
  else "$" +:+ shown ((λ n, n - 50) <$> parseInt (Some (substring1 fee))).

(** A label as a 12-hour clock shows it: [h:mm AM] or [h:mm PM]. *)
Definition clockLabel (h m : Z) (pm : bool) : string :=
  toString h +:+ ":" +:+ (if m <? 10 then "0" +:+ toString m else toString m)
    +:+ " " +:+ (if pm then "PM" else "AM").

End BookAppointment.

(** A run of the sample appointment setup with nobody signed in: the sample
    patient signs in, the row is stored, the sign-out rejects. *)
Definition sample_world : SampleAppointmentsSetup.World :=
  {| SampleAppointmentsSetup.tomorrowISO := "2025-01-02T10:00:00.000Z";
     SampleAppointmentsSetup.tomorrowPPP := "January 2nd, 2025";
     SampleAppointmentsSetup.sessionUser := SampleAppointmentsSetup.Resolved None;
     SampleAppointmentsSetup.insertError := SampleAppointmentsSetup.Resolved None;
     SampleAppointmentsSetup.signedIn :=
       SampleAppointmentsSetup.Resolved (false, Some "patient-1");
     SampleAppointmentsSetup.signedOut := SampleAppointmentsSetup.Rejected "network" |}.

(** The same with a user signed in. *)
Definition sample_world_user : SampleAppointmentsSetup.World :=
  {| SampleAppointmentsSetup.tomorrowISO := "2025-01-02T10:00:00.000Z";
     SampleAppointmentsSetup.tomorrowPPP := "January 2nd, 2025";
     SampleAppointmentsSetup.sessionUser := SampleAppointmentsSetup.Resolved (Some "user-7");
     SampleAppointmentsSetup.insertError := SampleAppointmentsSetup.Resolved None;
     SampleAppointmentsSetup.signedIn := SampleAppointmentsSetup.Rejected "unused";
     SampleAppointmentsSetup.signedOut := SampleAppointmentsSetup.Rejected "unused" |}.

(** The chat after one whole turn. *)
Definition sample_answered : Component :=
  after (turn_events (sample_turn "hello" 100)) sample_idle.

(** * Properties *)

(** ** Runs and invariants *)

Lemma run_app (t1 t2 : list Event) (s : Component) :
  run (t1 ++ t2) s = s1 ← run t1 s; run t2 s1.
Proof.
  revert s. induction t1 as [|e t1 IH]; intros s; simpl; [done|].
  destruct (step e s) as [s1|]; simpl; [apply IH | done].
Qed.

(** A property kept by every step is kept by every run. *)
Lemma run_invariant (P : Component → Prop) :
  (∀ e s s', P s → step e s = Some s' → P s') →
  ∀ trace s s', P s → run trace s = Some s' → P s'.
Proof.
  intros Hstep trace. induction trace as [|e trace IH]; intros s s' HP Hrun.
  - simpl in Hrun. by simplify_eq.
  - simpl in Hrun. destruct (step e s) as [s1|] eqn:He; simpl in Hrun; [|done].
    eapply IH; [|done]. by eapply Hstep.
Qed.

(** ** The context window *)

Lemma slice_last_length {A} (n : nat) (l : list A) :
  length (slice_last n l) = (length l `min` n)%nat.
Proof. unfold slice_last. rewrite length_drop. lia. Qed.



Lemma slice_last_lookup {A} (n i : nat) (l : list A) :
  slice_last n l !! i = l !! (length l - n + i)%nat.
Proof. unfold slice_last. apply lookup_drop. Qed.





(** ** Blank input *)

(** C9. When the input is empty after trimming, [handleSend] returns the
    component as it is: no loading state, no message appended, no invocation
    issued, no task suspended.  The send button is disabled for such an
    input, and Enter in the textarea changes nothing. *)
Theorem handleSend_blank (now date : Z) (s : Component) :
  trim (input s) = EmptyString →
  handleSend now date s = s
  ∧ step (ClickSend now date) s = None
  ∧ (∀ s', step (KeyEnter now date) s = Some s' → s' = s).
Proof.
  intros Hblank. split; [|split].
  - unfold handleSend. by rewrite Hblank.
  - unfold step, dispatch, sendButton_disabled. rewrite Hblank. simpl.
    rewrite orb_true_r. by destruct (mounted s).
  - intros s' Hs'. unfold step, dispatch in Hs'.
    destruct (mounted s); [|done]. destruct (textarea_disabled s); [done|].
    unfold handleSend in Hs'. rewrite Hblank in Hs'. simpl in Hs'. congruence.
Qed.

(** ** Suggested queries *)

(** C10. Selecting a suggested query replaces the input text and nothing
    else: the transcript, the loading flag, the invocations issued, the
    suspended handlers and every other part of the component stay as they
    are.  The suggestions are rendered exactly when the transcript has at
    most one message and no completion is loading, and a click on one can
    only occur then. *)
Theorem handleSuggestedQuery_only_input (query : string) (s : Component) :
  input (handleSuggestedQuery query s) = query
  ∧ messages (handleSuggestedQuery query s) = messages s
  ∧ isLoading (handleSuggestedQuery query s) = isLoading s
  ∧ invoked (handleSuggestedQuery query s) = invoked s
  ∧ sendTasks (handleSuggestedQuery query s) = sendTasks s
  ∧ handleSuggestedQuery query s = setInput query s
  ∧ setInput (input s) (handleSuggestedQuery query s) = s
  ∧ (suggestions_shown s = true ↔ (length (messages s) ≤ 1)%nat ∧ isLoading s = false)
  ∧ (∀ index s', step (ClickSuggested index) s = Some s' →
       suggestions_shown s = true
       ∧ ∃ q, suggestedQueries !! index = Some q ∧ s' = handleSuggestedQuery q s).
Proof.
  do 5 (split; [done|]). split; [done|]. split; [by destruct s|]. split.
  - unfold suggestions_shown. rewrite andb_true_iff, negb_true_iff, Nat.leb_le.
    done.
  - intros index s' Hstep. unfold step, dispatch in Hstep.
    destruct (mounted s); [|done].
    destruct (suggestions_shown s); [|done]. split; [done|].
    destruct (suggestedQueries !! index) as [q|]; simpl in Hstep; [|done].
    exists q. split; congruence.
Qed.

(** ** Submission and the context window *)

Lemma truthy_nonempty (t : string) : t ≠ EmptyString → truthy t = true.
Proof. by destruct t. Qed.

Lemma slice_last_last {A} (n : nat) (l : list A) :
  (0 < n)%nat → last (slice_last n l) = last l.
Proof.
  intros Hn. rewrite !last_lookup, slice_last_lookup, slice_last_length.
  destruct l as [|x l]; [done|]. f_equal. cbn [length]. lia.
Qed.

Lemma delete_insert_same {A} (l : list A) (k : nat) (x : A) :
  delete k (<[k := x]> l) = delete k l.
Proof. revert k. induction l as [|y l IH]; intros [|k]; simpl; f_equal; auto. Qed.

(** A submission that passes the guard of [handleSend]. *)
Lemma handleSend_accepted (now date : Z) (s : Component) :
  trim (input s) ≠ EmptyString →
  handleSend now date s =
    s |> appendMessage {| id := toString now; content := input s; role := user;
                          timestamp := date |}
      |> setInput EmptyString
      |> setIsLoading true
      |> invoke (saveMessage (sessionId s)
                   {| id := toString now; content := input s; role := user;
                      timestamp := date |})
      |> setSendTasks
           (sendTasks s ++ [handleSend_saveUser (input s) (messages s) (sessionId s)]).
Proof. intros Hne. unfold handleSend. by rewrite truthy_nonempty. Qed.

Lemma step_ClickSend (now date : Z) (s : Component) :
  mounted s = true → isLoading s = false → trim (input s) ≠ EmptyString →
  step (ClickSend now date) s = Some (handleSend now date s).
Proof.
  intros Hm Hl Hne. unfold step, dispatch, sendButton_disabled.
  by rewrite Hm, Hl, truthy_nonempty.
Qed.

Lemma step_SettleSend (k : nat) (t : SendTask) (r : Response) (now date : Z)
    (s : Component) :
  mounted s = true → sendTasks s !! k = Some t →
  step (SettleSend k r now date) s = Some (handleSend_resume k t r now date s).
Proof. intros Hm Ht. unfold step, dispatch. by rewrite Hm, Ht. Qed.

(** C1, as the code has it.  A submission appends the user message to the
    transcript at once, before the context window is computed; the window is
    nevertheless built from the transcript of the render in which the
    submission was made, that is from the messages that precede the user
    message.  The completion is invoked with the submitted text as prompt and
    with that window, whose last entry is the last message before the
    submission, while the transcript at call time already ends with the user
    message. *)
Theorem context_window_precedes_submission
    (now date now' date' : Z) (r : Response) (s : Component) :
  mounted s = true → isLoading s = false → trim (input s) ≠ EmptyString →
  let userMessage :=
    {| id := toString now; content := input s; role := user; timestamp := date |} in
  ∃ s1 s2,
    step (ClickSend now date) s = Some s1
    ∧ messages s1 = messages s ++ [userMessage]
    ∧ invoked s1 = invoked s ++ [saveMessage (sessionId s) userMessage]
    ∧ step (SettleSend (length (sendTasks s)) r now' date') s1 = Some s2
    ∧ invoked s2 = invoked s1
                   ++ [geminiHealthChat (input s) (previousMessages (messages s))]
    ∧ messages s2 = messages s ++ [userMessage]
    ∧ last (messages s2) = Some userMessage
    ∧ last (previousMessages (messages s)) = toEntry <$> last (messages s).
Proof.
  intros Hm Hl Hne userMessage.
  eexists _, _. split; [by apply step_ClickSend|].
  rewrite (handleSend_accepted now date s Hne).
  split; [done|]. split; [done|]. split.
  { apply step_SettleSend; [done|]. by apply list_lookup_middle. }
  split; [by destruct r|]. split; [by destruct r|]. split.
  - destruct r; simpl; apply last_snoc.
  - unfold previousMessages. rewrite fmap_last. f_equal.
    apply slice_last_last. lia.
Qed.


(** ** Hydration *)

(** C4, as the code has it.  The transcript starts as the one seed greeting
    of the assistant.  When the remote fetch resolves without error and with
    no stored messages, the transcript is left as that seed and the seed is
    persisted at once, by one [saveSession] invocation that carries the whole
    seed list; no [saveMessage] invocation is made during hydration. *)
Theorem hydration_empty_saves_seed
    (e : Env) (storage : gmap string string) (uuid : string)
    (doc : option (list Message)) :
  doc = None ∨ doc = Some [] →
  ∃ s,
    run [Mount uuid; SettleInit (Resolves false (SessionDoc doc))] (initial e storage)
      = Some s
    ∧ messages s = initialMessages (loadedAt e)
    ∧ length (messages s) = 1%nat
    ∧ Forall (λ m, role m = bot) (messages s)
    ∧ invoked s =
        [ getSession (resolveSessionId uuid storage).1;
          saveSession (resolveSessionId uuid storage).1 (initialMessages (loadedAt e)) ]
    ∧ initTask s = Some initSession_saveSession.
Proof.
  intros Hdoc. simpl. unfold initSession. simpl.
  destruct (resolveSessionId uuid storage) as [sid st]. simpl.
  destruct Hdoc as [-> | ->]; simpl;
    (eexists; split; [reflexivity|]); simpl;
    repeat split; repeat constructor.
Qed.

(** ** Completion failure *)

(** C5. When the completion fails (the invocation rejects, resolves with
    [error] set, or resolves without data), exactly one message is appended
    to the transcript: the fixed error text, with the [bot] role; it is
    persisted by a [saveMessage] invocation and a destructive toast is shown.
    Once that save settles, whatever its outcome, the loading flag is off
    again with the transcript unchanged, and a new non-blank submission is
    accepted at once. *)
Theorem completion_failure_recovered
    (k : nat) (sessionId0 : string) (r r' : Response) (now date now' date' : Z)
    (s : Component) :
  mounted s = true →
  sendTasks s !! k = Some (handleSend_invoke sessionId0) →
  generated r = None →
  ∃ s1 s2,
    step (SettleSend k r now date) s = Some s1
    ∧ messages s1 = messages s ++ [errorMessage now date]
    ∧ role (errorMessage now date) = bot
    ∧ content (errorMessage now date) = errorText
    ∧ invoked s1 = invoked s ++ [saveMessage sessionId0 (errorMessage now date)]
    ∧ toasts s1 = toasts s ++ [noResponseToast]
    ∧ step (SettleSend k r' now' date') s1 = Some s2
    ∧ messages s2 = messages s ++ [errorMessage now date]
    ∧ invoked s2 = invoked s1
    ∧ isLoading s2 = false
    ∧ sendTasks s2 = delete k (sendTasks s)
    ∧ ∀ value now2 date2, trim value ≠ EmptyString →
        ∃ s3 s4,
          step (Change value) s2 = Some s3
          ∧ step (ClickSend now2 date2) s3 = Some s4
          ∧ isLoading s4 = true
          ∧ messages s4 = messages s2
              ++ [{| id := toString now2; content := value; role := user;
                     timestamp := date2 |}].
Proof.
  intros Hm Ht Hfail.
  assert (Hk : (k < length (sendTasks s))%nat) by by eapply lookup_lt_Some.
  pose (s1 := handleSend_resume k (handleSend_invoke sessionId0) r now date s).
  pose (s2 := handleSend_resume k handleSend_saveReply r' now' date' s1).
  assert (E1 : s1 =
    s |> console_error "Error getting response:"
      |> toast noResponseToast
      |> appendMessage (errorMessage now date)
      |> invoke (saveMessage sessionId0 (errorMessage now date))
      |> setSendTasks (<[k := handleSend_saveReply]> (sendTasks s))).
  { unfold s1, handleSend_resume. by rewrite Hfail. }
  assert (Hidle : mounted s2 = true ∧ isLoading s2 = false
                  ∧ messages s2 = messages s ++ [errorMessage now date]).
  { unfold s2. rewrite E1. by destruct r'. }
  destruct Hidle as (Hm2 & Hl2 & Hmsg2).
  exists s1, s2. split; [by apply step_SettleSend|].
  split; [by rewrite E1|]. do 2 (split; [done|]).
  split; [by rewrite E1|]. split; [by rewrite E1|]. split.
  { apply step_SettleSend; [by rewrite E1|].
    rewrite E1. simpl. by apply list_lookup_insert_eq. }
  split; [done|]. split; [unfold s2; by destruct r'|]. split; [done|]. split.
  { unfold s2. rewrite E1. destruct r'; simpl; apply delete_insert_same. }
  intros value now2 date2 Hvalue.
  exists (setInput value s2), (handleSend now2 date2 (setInput value s2)).
  split.
  { unfold step, dispatch, textarea_disabled. by rewrite Hm2, Hl2. }
  split; [by apply step_ClickSend|].
  by rewrite handleSend_accepted.
Qed.

(** ** Termination *)

Lemma step_SettleEnd (r : Response) (s : Component) :
  mounted s = true → (0 < endTasks s)%nat →
  step (SettleEnd r) s = Some (endChat_resume r s).
Proof.
  intros Hm Hn. unfold step, dispatch. rewrite Hm.
  destruct (endTasks s); [lia | done].
Qed.

(** C3, as the code has it.  When the [endSession] invocation resolves,
    with or without an error in its result, the stored session id is removed
    from [localStorage], [closeChat] is called if it was supplied and the
    "Chat ended" toast is shown; the next identity resolution then finds
    nothing stored and returns the freshly generated id, which it stores.
    When the invocation rejects, the [catch] block only logs and shows the
    failure toast: [localStorage] is left as it is and [closeChat] is not
    called. *)
Theorem endChat_erases_id_when_resolved (r : Response) (s : Component) :
  mounted s = true → (0 < endTasks s)%nat →
  ∃ s',
    step (SettleEnd r) s = Some s'
    ∧ match r with
      | Resolves _ _ =>
          localStorage s' = delete session_key (localStorage s)
          ∧ localStorage s' !! session_key = None
          ∧ toasts s' = toasts s ++ [chatEndedToast]
          ∧ closeChatCalls s' =
              (if closeChat (env s) then S (closeChatCalls s) else closeChatCalls s)
          ∧ (∀ uuid, resolveSessionId uuid (localStorage s')
                     = (uuid, <[session_key := uuid]> (localStorage s')))
          ∧ (∀ e uuid, ∃ s2,
               step (Mount uuid) (initial e (localStorage s')) = Some s2
               ∧ sessionId s2 = uuid
               ∧ localStorage s2 !! session_key = Some uuid)
      | Rejects =>
          localStorage s' = localStorage s
          ∧ toasts s' = toasts s ++ [endFailedToast]
          ∧ closeChatCalls s' = closeChatCalls s
      end.
Proof.
  intros Hm Hn. exists (endChat_resume r s).
  split; [by apply step_SettleEnd|].
  destruct r as [|err data]; [done|].
  assert (Hgone : localStorage (endChat_resume (Resolves err data) s) !! session_key
                  = None) by apply lookup_delete_eq.
  assert (Hres : ∀ uuid,
    resolveSessionId uuid (localStorage (endChat_resume (Resolves err data) s))
    = (uuid, <[session_key := uuid]>
               (localStorage (endChat_resume (Resolves err data) s)))).
  { intros uuid. unfold resolveSessionId. by rewrite Hgone. }
  do 4 (split; [done|]). split; [done|].
  intros e uuid. eexists. split; [reflexivity|].
  unfold initSession. cbn [localStorage setMounted initial].
  rewrite Hres. split; [done|]. apply lookup_insert_eq.
Qed.

(** C2, as the code has it.  The component has no terminated state.
    Neither the click on "End Chat" nor the settling of its [endSession]
    invocation touches the transcript, the input, the loading flag or the
    suspended submissions, so the send controls are enabled afterwards
    exactly when they were before and [handleSend] does what it did; and a
    completion that resolves is appended to the transcript and persisted by
    [saveMessage] whether or not the session has been ended meanwhile. *)
Theorem endChat_leaves_controller_open (ev : Event) (s s' : Component) :
  (ev = ClickEndChat ∨ ∃ r, ev = SettleEnd r) →
  step ev s = Some s' →
  messages s' = messages s
  ∧ input s' = input s
  ∧ isLoading s' = isLoading s
  ∧ sendTasks s' = sendTasks s
  ∧ sessionId s' = sessionId s
  ∧ (∀ now date,
       step (ClickSend now date) s' = None ↔ step (ClickSend now date) s = None)
  ∧ (∀ now date,
       step (KeyEnter now date) s' = None ↔ step (KeyEnter now date) s = None)
  ∧ (∀ now date,
       messages (handleSend now date s') = messages (handleSend now date s)
       ∧ isLoading (handleSend now date s') = isLoading (handleSend now date s)
       ∧ sendTasks (handleSend now date s') = sendTasks (handleSend now date s))
  ∧ (∀ k sessionId0 r now date generatedText,
       sendTasks s' !! k = Some (handleSend_invoke sessionId0) →
       generated r = Some generatedText →
       ∃ s2,
         step (SettleSend k r now date) s' = Some s2
         ∧ messages s2 = messages s' ++ [botMessage now date generatedText]
         ∧ invoked s2 = invoked s'
             ++ [saveMessage sessionId0 (botMessage now date generatedText)]).
Proof.
  intros Hev Hstep.
  assert (Hframe : mounted s' = true ∧ mounted s = true
                   ∧ messages s' = messages s ∧ input s' = input s
                   ∧ isLoading s' = isLoading s ∧ sendTasks s' = sendTasks s
                   ∧ sessionId s' = sessionId s).
  { destruct Hev as [-> | [r ->]]; unfold step, dispatch in Hstep;
      destruct (mounted s) eqn:Hm; try done.
    - by simplify_eq.
    - destruct (endTasks s); [done|]. simplify_eq. by destruct r. }
  destruct Hframe as (Hm' & Hm & Hmsg & Hin & Hload & Htasks & Hsid).
  do 5 (split; [done|]). split; [|split; [|split]].
  - intros now date. unfold step, dispatch, sendButton_disabled.
    rewrite Hm', Hm, Hin, Hload.
    destruct (isLoading s || negb (truthy (trim (input s)))); naive_solver.
  - intros now date. unfold step, dispatch, textarea_disabled.
    rewrite Hm', Hm, Hload. destruct (isLoading s); naive_solver.
  - intros now date. unfold handleSend. rewrite Hin.
    destruct (negb (truthy (trim (input s)))); [done|].
    simpl. by rewrite Hmsg, Htasks, Hsid.
  - intros k sessionId0 r now date generatedText Ht Hgen.
    eexists. split; [by apply step_SettleSend|].
    unfold handleSend_resume. by rewrite Hgen.
Qed.

(** ** The transcript along a run *)

(** What one step can do to the transcript: leave it, append one message to
    it, or, when the hydration fetch settles, replace it by the stored
    messages. *)
Lemma step_messages (e : Event) (s s' : Component) :
  step e s = Some s' →
  messages s' = messages s
  ∨ (∃ m, messages s' = messages s ++ [m])
  ∨ (∃ sid m l, initTask s = Some (initSession_getSession sid)
                ∧ messages s' = m :: l).
Proof.
  intros H. destruct e; unfold step, dispatch in H.
  - destruct (mounted s); [done|]. simplify_eq. left.
    unfold initSession. by destruct (resolveSessionId _ _).
  - destruct (mounted s), (textarea_disabled s); simplify_eq. left; reflexivity.
  - destruct (mounted s), (textarea_disabled s); simplify_eq.
    unfold handleSend. destruct (negb _); [left; reflexivity | right; left; eexists; reflexivity].
  - destruct (mounted s), (sendButton_disabled s); simplify_eq.
    unfold handleSend. destruct (negb _); [left; reflexivity | right; left; eexists; reflexivity].
  - destruct (mounted s), (suggestions_shown s); simplify_eq.
    destruct (suggestedQueries !! index); simpl in H; simplify_eq.
    left; reflexivity.
  - destruct (mounted s); simplify_eq. left; reflexivity.
  - destruct (mounted s), (closeButton_shown s); simplify_eq. left; reflexivity.
  - destruct (mounted s); [|done].
    destruct (initTask s) as [t|] eqn:Ht; simplify_eq. simpl in H. simplify_eq.
    destruct t as [sid|]; simpl.
    + destruct r as [|[] [| [[|m l]|] |]]; simpl; try (left; reflexivity).
      right; right. by exists sid, m, l.
    + destruct r; left; reflexivity.
  - destruct (mounted s); [|done].
    destruct (sendTasks s !! k) as [t|]; simplify_eq. simpl in H. simplify_eq.
    destruct t; simpl.
    + destruct r; left; reflexivity.
    + destruct (generated r); right; left; eexists; reflexivity.
    + destruct r; left; reflexivity.
  - destruct (mounted s); [|done]. destruct (endTasks s); simplify_eq.
    destruct r; left; reflexivity.
Qed.

Lemma step_hydrated (e : Event) (s s' : Component) :
  hydrated s → step e s = Some s' → hydrated s'.
Proof.
  intros [Hm Hinit] H.
  destruct e; unfold step, dispatch in H; rewrite Hm in H; try done.
  - destruct (textarea_disabled s); by simplify_eq.
  - destruct (textarea_disabled s); simplify_eq.
    unfold handleSend. by destruct (negb _).
  - destruct (sendButton_disabled s); simplify_eq.
    unfold handleSend. by destruct (negb _).
  - destruct (suggestions_shown s); simplify_eq.
    destruct (suggestedQueries !! index); simpl in H; by simplify_eq.
  - by simplify_eq.
  - destruct (closeButton_shown s); by simplify_eq.
  - destruct (initTask s) as [t|] eqn:Ht; simplify_eq. simpl in H. simplify_eq.
    destruct t as [sid|]; [by destruct (Hinit sid)|].
    by destruct r.
  - destruct (sendTasks s !! k) as [t|]; simplify_eq. simpl in H. simplify_eq.
    destruct t; simpl; [by destruct r | by destruct (generated r) | by destruct r].
  - destruct (endTasks s); simplify_eq. by destruct r.
Qed.

Lemma step_length_mono (e : Event) (s s' : Component) :
  hydrated s → step e s = Some s' →
  (length (messages s) ≤ length (messages s'))%nat.
Proof.
  intros [_ Hinit] H.
  destruct (step_messages e s s' H) as [-> | [[m ->] | (sid & m & l & Ht & _)]].
  - done.
  - rewrite length_app. lia.
  - by destruct (Hinit sid).
Qed.

Lemma run_length_mono (trace : list Event) (s s' : Component) :
  hydrated s → run trace s = Some s' →
  hydrated s' ∧ (length (messages s) ≤ length (messages s'))%nat.
Proof.
  revert s. induction trace as [|e trace IH]; intros s Hh Hrun; simpl in Hrun.
  - by simplify_eq.
  - destruct (step e s) as [s1|] eqn:He; simpl in Hrun; [|done].
    destruct (IH s1) as [Hh' Hle]; [by eapply step_hydrated | done |].
    split; [done|]. pose proof (step_length_mono e s s1 Hh He). lia.
Qed.

Lemma run_turn (t : Turn) (s : Component) :
  mounted s = true → isLoading s = false → sendTasks s = [] → turn_ok t →
  ∃ s', run (turn_events t) s = Some s'
        ∧ mounted s' = true ∧ isLoading s' = false ∧ sendTasks s' = []
        ∧ initTask s' = initTask s
        ∧ messages s' = messages s ++ turn_messages t.
Proof.
  intros Hm Hl Hs [Hne [g Hg]].
  unfold turn_events, turn_messages. rewrite Hg. cbn [default].
  set (u := {| id := toString (turn_now t); content := turn_input t; role := user;
               timestamp := turn_date t |}).
  set (b := botMessage (turn_replyNow t) (turn_replyDate t) g).
  set (s0 := setInput (turn_input t) s).
  set (s1 := handleSend (turn_now t) (turn_date t) s0).
  set (s2 := handleSend_resume 0
               (handleSend_saveUser (turn_input t) (messages s) (sessionId s))
               (turn_userSaved t) (turn_now t) (turn_date t) s1).
  set (s3 := handleSend_resume 0 (handleSend_invoke (sessionId s))
               (turn_completion t) (turn_replyNow t) (turn_replyDate t) s2).
  set (s4 := handleSend_resume 0 handleSend_saveReply
               (turn_replySaved t) (turn_replyNow t) (turn_replyDate t) s3).
  assert (E1 : s1 =
    s0 |> appendMessage u |> setInput EmptyString |> setIsLoading true
       |> invoke (saveMessage (sessionId s) u)
       |> setSendTasks
            (sendTasks s ++ [handleSend_saveUser (turn_input t) (messages s) (sessionId s)])).
  { by apply (handleSend_accepted (turn_now t) (turn_date t) s0). }
  assert (H0 : step (Change (turn_input t)) s = Some s0).
  { unfold step, dispatch, textarea_disabled. by rewrite Hm, Hl. }
  assert (H1 : step (if turn_byKey t then KeyEnter (turn_now t) (turn_date t)
                     else ClickSend (turn_now t) (turn_date t)) s0 = Some s1).
  { destruct (turn_byKey t); [|by apply step_ClickSend].
    unfold step, dispatch, textarea_disabled. simpl. by rewrite Hm, Hl. }
  assert (H2 : step (SettleSend 0 (turn_userSaved t) (turn_now t) (turn_date t)) s1
               = Some s2).
  { apply step_SettleSend; rewrite E1; [done|]. simpl. by rewrite Hs. }
  assert (F2 : mounted s2 = true ∧ isLoading s2 = true
               ∧ sendTasks s2 = [handleSend_invoke (sessionId s)]
               ∧ initTask s2 = initTask s ∧ messages s2 = messages s ++ [u]).
  { unfold s2. rewrite E1. destruct (turn_userSaved t); simpl; by rewrite Hs. }
  destruct F2 as (Hm2 & Hl2 & Hs2 & Hi2 & Hmsg2).
  clearbody s2 s1.
  assert (H3 : step (SettleSend 0 (turn_completion t) (turn_replyNow t)
                       (turn_replyDate t)) s2 = Some s3).
  { apply step_SettleSend; [done|]. by rewrite Hs2. }
  assert (F3 : mounted s3 = true ∧ sendTasks s3 = [handleSend_saveReply]
               ∧ initTask s3 = initTask s ∧ messages s3 = messages s ++ [u; b]).
  { unfold s3, handleSend_resume. rewrite Hg. simpl.
    by rewrite Hm2, Hs2, Hi2, Hmsg2, <- app_assoc. }
  destruct F3 as (Hm3 & Hs3 & Hi3 & Hmsg3).
  clearbody s3.
  assert (H4 : step (SettleSend 0 (turn_replySaved t) (turn_replyNow t)
                       (turn_replyDate t)) s3 = Some s4).
  { apply step_SettleSend; [done|]. by rewrite Hs3. }
  assert (F4 : mounted s4 = true ∧ isLoading s4 = false ∧ sendTasks s4 = []
               ∧ initTask s4 = initTask s ∧ messages s4 = messages s ++ [u; b]).
  { unfold s4. destruct (turn_replySaved t); simpl; by rewrite Hm3, Hs3, Hi3, Hmsg3. }
  clearbody s4.
  exists s4. split; [|done].
  cbn [run]. rewrite H0. cbn [mbind option_bind]. rewrite H1. cbn [mbind option_bind].
  rewrite H2. cbn [mbind option_bind]. rewrite H3. cbn [mbind option_bind].
  by rewrite H4.
Qed.

Lemma run_turns (turns : list Turn) (s : Component) :
  mounted s = true → isLoading s = false → sendTasks s = [] →
  Forall turn_ok turns →
  ∃ s', run (turns ≫= turn_events) s = Some s'
        ∧ mounted s' = true ∧ isLoading s' = false ∧ sendTasks s' = []
        ∧ initTask s' = initTask s
        ∧ messages s' = messages s ++ (turns ≫= turn_messages).
Proof.
  intros Hm Hl Hs Hok. revert s Hm Hl Hs.
  induction Hok as [|t turns Ht _ IH]; intros s Hm Hl Hs.
  - exists s. simpl. by rewrite app_nil_r.
  - destruct (run_turn t s Hm Hl Hs Ht) as (s1 & Hrun & Hm1 & Hl1 & Hs1 & Hi1 & Hmsg1).
    destruct (IH s1 Hm1 Hl1 Hs1) as (s' & Hrun' & Hm' & Hl' & Hs' & Hi' & Hmsg').
    exists s'. rewrite !bind_cons, run_app, Hrun.
    split; [done|]. do 3 (split; [done|]). split; [congruence|].
    by rewrite Hmsg', Hmsg1, <- app_assoc.
Qed.

(** C7, as the code has it.  Once the hydration fetch has settled, N
    non-blank submissions, each followed by a successful completion, append
    the user message and the reply of each turn in order: the transcript has
    2N more messages than it had, which is 1 + 2N for a session that started
    from the seed, and the component is idle again.  From then on no event
    shortens the transcript, termination included. *)
Theorem transcript_grows_by_turns (turns : list Turn) (s : Component) :
  hydrated s → isLoading s = false → sendTasks s = [] →
  Forall turn_ok turns →
  (∃ s', run (turns ≫= turn_events) s = Some s'
         ∧ messages s' = messages s ++ (turns ≫= turn_messages)
         ∧ length (messages s') = (length (messages s) + 2 * length turns)%nat
         ∧ (messages s = initialMessages (loadedAt (env s)) →
            length (messages s') = (1 + 2 * length turns)%nat)
         ∧ isLoading s' = false ∧ sendTasks s' = [])
  ∧ (∀ t1 t2 s1 s2, run t1 s = Some s1 → run t2 s1 = Some s2 →
       (length (messages s1) ≤ length (messages s2))%nat).
Proof.
  intros Hh Hl Hs Hok. split.
  - destruct (run_turns turns s (proj1 Hh) Hl Hs Hok)
      as (s' & Hrun & _ & Hl' & Hs' & _ & Hmsg).
    assert (Hlen : length (turns ≫= turn_messages) = (2 * length turns)%nat).
    { clear. induction turns as [|t turns IH]; [done|].
      rewrite bind_cons, length_app, IH. simpl. lia. }
    exists s'. split; [done|]. split; [done|]. split.
    { by rewrite Hmsg, length_app, Hlen. }
    split; [|done]. intros Hseed. by rewrite Hmsg, length_app, Hlen, Hseed.
  - intros t1 t2 s1 s2 H1 H2.
    destruct (run_length_mono t1 s s1 Hh H1) as [Hh1 _].
    by destruct (run_length_mono t2 s1 s2 Hh1 H2).
Qed.

(** ** One completion at a time *)

Lemma handleSend_single_flight (now date : Z) (s : Component) :
  isLoading s = false → sendTasks s = [] → single_flight (handleSend now date s).
Proof.
  intros Hl Hs. unfold handleSend. destruct (negb _).
  - by left.
  - right. simpl. rewrite Hs. eauto.
Qed.

Lemma step_single_flight (e : Event) (s s' : Component) :
  single_flight s → step e s = Some s' → single_flight s'.
Proof.
  intros Hinv H. destruct e; unfold step, dispatch in H.
  - destruct (mounted s); [done|]. simplify_eq.
    unfold initSession. by destruct (resolveSessionId _ _).
  - destruct (mounted s); [|done]. unfold textarea_disabled in H.
    destruct (isLoading s) eqn:Hl; simplify_eq.
    left. destruct Hinv as [[_ Hs] | [? _]]; [done | congruence].
  - destruct (mounted s); [|done]. unfold textarea_disabled in H.
    destruct (isLoading s) eqn:Hl; simplify_eq.
    destruct Hinv as [[_ Hs] | [? _]]; [|congruence].
    by apply handleSend_single_flight.
  - destruct (mounted s); [|done]. unfold sendButton_disabled in H.
    destruct (isLoading s) eqn:Hl; simpl in H; [done|].
    destruct (negb _); simplify_eq.
    destruct Hinv as [[_ Hs] | [? _]]; [|congruence].
    by apply handleSend_single_flight.
  - destruct (mounted s); [|done]. unfold suggestions_shown in H.
    destruct (isLoading s) eqn:Hl.
    { by rewrite andb_false_r in H. }
    destruct (_ && _); [|done].
    destruct (suggestedQueries !! index); simpl in H; simplify_eq.
    left. destruct Hinv as [[_ Hs] | [? _]]; [done | congruence].
  - destruct (mounted s); by simplify_eq.
  - destruct (mounted s), (closeButton_shown s); by simplify_eq.
  - destruct (mounted s); [|done].
    destruct (initTask s) as [t|]; simpl in H; simplify_eq.
    destruct t; [destruct r as [|[] [| [[|m l]|] |]] | destruct r]; done.
  - destruct (mounted s); [|done].
    destruct (sendTasks s !! k) as [t|] eqn:Ht; simpl in H; simplify_eq.
    destruct Hinv as [[_ Hs] | (Hl & Hin & t0 & Hs)].
    { by rewrite Hs in Ht. }
    rewrite Hs in Ht. destruct k; [|done]. simpl in Ht. simplify_eq.
    destruct t; simpl.
    + right. destruct r; simpl; rewrite Hs; eauto.
    + right. destruct (generated r); simpl; rewrite Hs; eauto.
    + left. destruct r; simpl; by rewrite Hs.
  - destruct (mounted s); [|done]. destruct (endTasks s); simplify_eq.
    by destruct r.
Qed.

Lemma reachable_single_flight (s : Component) : reachable s → single_flight s.
Proof.
  intros (e & storage & trace & Hrun).
  eapply (run_invariant single_flight); [apply step_single_flight | | done].
  by left.
Qed.

(** C6. In every state the component can reach, at most one [handleSend] is
    suspended.  While one is, the component is loading: the textarea and the
    send button are disabled and the suggestions are not rendered, so no
    submission, keystroke or edit can be issued until the completion has been
    handled; the second submission is refused by the disabled controls, not
    queued.  A submission that is accepted therefore starts when no
    completion is outstanding, and the transcript it captures for its context
    window is the current one, to which every earlier reply has been
    appended. *)
Theorem single_completion_outstanding (s : Component) :
  reachable s →
  (length (sendTasks s) ≤ 1)%nat
  ∧ (sendTasks s ≠ [] →
       isLoading s = true
       ∧ textarea_disabled s = true
       ∧ sendButton_disabled s = true
       ∧ suggestions_shown s = false
       ∧ (∀ now date, step (ClickSend now date) s = None)
       ∧ (∀ now date, step (KeyEnter now date) s = None)
       ∧ (∀ value, step (Change value) s = None)
       ∧ (∀ index, step (ClickSuggested index) s = None))
  ∧ (∀ now date s',
       step (ClickSend now date) s = Some s' ∨ step (KeyEnter now date) s = Some s' →
       sendTasks s = []
       ∧ (s' = s
          ∨ sendTasks s' = [handleSend_saveUser (input s) (messages s) (sessionId s)])).
Proof.
  intros Hreach. apply reachable_single_flight in Hreach.
  split; [|split].
  - destruct Hreach as [[_ ->] | (_ & _ & t & ->)]; simpl; lia.
  - intros Hne. destruct Hreach as [[_ Hs] | (Hl & _ & _)]; [done|].
    unfold textarea_disabled, sendButton_disabled, suggestions_shown,
      step, dispatch, textarea_disabled, sendButton_disabled, suggestions_shown.
    rewrite Hl, andb_false_r. simpl.
    repeat split; try done; intros; by destruct (mounted s).
  - intros now date s' Hstep.
    assert (Hl : isLoading s = false ∧ s' = handleSend now date s).
    { destruct Hstep as [H | H]; unfold step, dispatch, sendButton_disabled,
        textarea_disabled in H; destruct (mounted s); try done;
        destruct (isLoading s); simpl in H; try done.
      - destruct (negb _); by simplify_eq.
      - by simplify_eq. }
    destruct Hl as [Hl ->].
    destruct Hreach as [[_ Hs] | (Hl' & _)]; [|congruence].
    split; [done|]. unfold handleSend. destruct (negb _); [by left|].
    right. simpl. by rewrite Hs.
Qed.

(** * The properties on sample sessions *)

Lemma sample_idle_run :
  run sample_hydration (initial sample_env ∅) = Some sample_idle.
Proof. vm_compute. reflexivity. Qed.



Lemma handleSend_blank_witness :
  trim (input sample_blank) = EmptyString
  ∧ handleSend 100 101 sample_blank = sample_blank
  ∧ step (ClickSend 100 101) sample_blank = None.
Proof.
  assert (Hblank : trim (input sample_blank) = EmptyString) by reflexivity.
  split; [exact Hblank|].
  destruct (handleSend_blank 100 101 sample_blank Hblank) as (Hsame & Hclick & _).
  split; [exact Hsame | exact Hclick].
Defined.

Lemma handleSuggestedQuery_only_input_witness :
  suggestions_shown sample_idle = true
  ∧ (length (messages sample_idle) ≤ 1)%nat
  ∧ isLoading sample_idle = false
  ∧ messages (handleSuggestedQuery "Common symptoms of dengue fever?" sample_idle)
    = messages sample_idle.
Proof.
  assert (Hshown : suggestions_shown sample_idle = true) by reflexivity.
  destruct (handleSuggestedQuery_only_input "Common symptoms of dengue fever?"
              sample_idle) as (_ & Hmsg & _ & _ & _ & _ & _ & Hiff & _).
  destruct (proj1 Hiff Hshown) as [Hlen Hload].
  split; [exact Hshown|]. split; [exact Hlen|]. split; [exact Hload | exact Hmsg].
Defined.

Lemma context_window_precedes_submission_witness :
  mounted sample_typed = true
  ∧ isLoading sample_typed = false
  ∧ trim (input sample_typed) ≠ EmptyString
  ∧ ∃ s1 s2,
      step (ClickSend 100 101) sample_typed = Some s1
      ∧ step (SettleSend 0 (Resolves false NoData) 100 101) s1 = Some s2
      ∧ invoked s2 = invoked s1
          ++ [geminiHealthChat "hello" (previousMessages (initialMessages 0))]
      ∧ messages s2 = initialMessages 0 ++ [sample_userMessage].
Proof.
  assert (Hm : mounted sample_typed = true) by reflexivity.
  assert (Hl : isLoading sample_typed = false) by reflexivity.
  assert (Hne : trim (input sample_typed) ≠ EmptyString) by (vm_compute; discriminate).
  do 3 (split; [assumption|]).
  destruct (context_window_precedes_submission 100 101 100 101 (Resolves false NoData)
              sample_typed Hm Hl Hne) as (s1 & s2 & H1 & _ & _ & H2 & H3 & H4 & _).
  exists s1, s2. split; [exact H1|]. split; [exact H2|]. split; [exact H3 | exact H4].
Defined.

(** C1 as the spec states it fails on the first turn of a fresh session: the
    completion is invoked with the seed greeting as its only context entry,
    while the transcript already ends with the user message "hello". *)
Lemma context_window_omits_submission :
  ∃ s history,
    run (sample_hydration
           ++ [Change "hello"; ClickSend 100 101;
               SettleSend 0 (Resolves false NoData) 100 101])
        (initial sample_env ∅) = Some s
    ∧ last (invoked s) = Some (geminiHealthChat "hello" history)
    ∧ last (messages s) = Some sample_userMessage
    ∧ length history = 1%nat
    ∧ last history ≠ toEntry <$> last (messages s)
    ∧ toEntry sample_userMessage ∉ history.
Proof.
  eexists _, _. split; [vm_compute; reflexivity|].
  split; [vm_compute; reflexivity|]. split; [vm_compute; reflexivity|].
  split; [reflexivity|]. split.
  - vm_compute. discriminate.
  - intros Hin. apply list_elem_of_singleton in Hin. vm_compute in Hin. discriminate.
Qed.

Lemma hydration_empty_saves_seed_witness :
  (Some ([] : list Message) = None ∨ Some ([] : list Message) = Some [])
  ∧ ∃ s,
      run [Mount "u1"; SettleInit (Resolves false (SessionDoc (Some [])))]
          (initial sample_env ∅) = Some s
      ∧ invoked s = [getSession "u1"; saveSession "u1" (initialMessages 0)].
Proof.
  assert (Hdoc : Some ([] : list Message) = None ∨ Some ([] : list Message) = Some [])
    by (right; reflexivity).
  split; [exact Hdoc|].
  destruct (hydration_empty_saves_seed sample_env ∅ "u1" (Some []) Hdoc)
    as (s & Hrun & _ & _ & _ & Hinv & _).
  exists s. split; [exact Hrun | exact Hinv].
Defined.

(** C4 as the spec states it fails: hydrating from an empty remote store
    issues [getSession] and [saveSession] and no [saveMessage]. *)
Lemma hydration_seed_not_saved_by_saveMessage :
  ∃ s,
    run [Mount "u1"; SettleInit (Resolves false (SessionDoc (Some [])))]
        (initial sample_env ∅) = Some s
    ∧ messages s = initialMessages 0
    ∧ invoked s = [getSession "u1"; saveSession "u1" (initialMessages 0)]
    ∧ ∀ sid m, saveMessage sid m ∉ invoked s.
Proof.
  eexists. split; [vm_compute; reflexivity|].
  split; [reflexivity|]. split; [reflexivity|].
  intros sid m Hin. cbn in Hin.
  apply elem_of_cons in Hin as [Hin | Hin]; [discriminate|].
  apply list_elem_of_singleton in Hin. discriminate.
Qed.

Lemma completion_failure_recovered_witness :
  mounted sample_awaiting = true
  ∧ sendTasks sample_awaiting !! 0%nat = Some (handleSend_invoke "u1")
  ∧ generated Rejects = None
  ∧ ∃ s1 s2,
      step (SettleSend 0 Rejects 200 202) sample_awaiting = Some s1
      ∧ messages s1 = messages sample_awaiting ++ [errorMessage 200 202]
      ∧ step (SettleSend 0 (Resolves false NoData) 200 202) s1 = Some s2
      ∧ messages s2 = messages sample_awaiting ++ [errorMessage 200 202]
      ∧ isLoading s2 = false.
Proof.
  assert (Hm : mounted sample_awaiting = true) by reflexivity.
  assert (Ht : sendTasks sample_awaiting !! 0%nat = Some (handleSend_invoke "u1"))
    by reflexivity.
  assert (Hfail : generated Rejects = None) by reflexivity.
  do 3 (split; [assumption|]).
  destruct (completion_failure_recovered 0 "u1" Rejects (Resolves false NoData)
              200 202 200 202 sample_awaiting Hm Ht Hfail)
    as (s1 & s2 & H1 & H2 & _ & _ & _ & _ & H3 & H4 & _ & H5 & _).
  exists s1, s2. split; [exact H1|]. split; [exact H2|]. split; [exact H3|].
  split; [exact H4 | exact H5].
Defined.

Lemma endChat_erases_id_when_resolved_witness :
  mounted sample_ending = true
  ∧ (0 < endTasks sample_ending)%nat
  ∧ localStorage sample_ending !! session_key = Some "u1"
  ∧ ∃ s',
      step (SettleEnd (Resolves true NoData)) sample_ending = Some s'
      ∧ localStorage s' !! session_key = None
      ∧ (resolveSessionId "u2" (localStorage s')).1 = "u2".
Proof.
  assert (Hm : mounted sample_ending = true) by reflexivity.
  assert (Hn : (0 < endTasks sample_ending)%nat) by (vm_compute; lia).
  do 2 (split; [assumption|]). split; [reflexivity|].
  destruct (endChat_erases_id_when_resolved (Resolves true NoData) sample_ending Hm Hn)
    as (s' & Hstep & _ & Hgone & _ & _ & Hres & _).
  exists s'. split; [exact Hstep|]. split; [exact Hgone|].
  exact (f_equal fst (Hres "u2")).
Defined.

(** C3 as the spec states it fails when the purge rejects: the stored id is
    still there, and the next identity resolution returns it again. *)
Lemma endChat_rejected_keeps_id :
  ∃ s,
    run (sample_hydration ++ [ClickEndChat; SettleEnd Rejects]) (initial sample_env ∅)
      = Some s
    ∧ last (invoked s) = Some (endSession "u1")
    ∧ toasts s = [endFailedToast]
    ∧ localStorage s !! session_key = Some "u1"
    ∧ (resolveSessionId "u2" (localStorage s)).1 = "u1".
Proof.
  eexists. split; [vm_compute; reflexivity|].
  repeat split; vm_compute; reflexivity.
Qed.

Lemma endChat_leaves_controller_open_witness :
  (ClickEndChat = ClickEndChat ∨ ∃ r, ClickEndChat = SettleEnd r)
  ∧ step ClickEndChat sample_awaiting = Some (endChat sample_awaiting)
  ∧ messages (endChat sample_awaiting) = messages sample_awaiting
  ∧ sendTasks (endChat sample_awaiting) = sendTasks sample_awaiting.
Proof.
  assert (Hev : ClickEndChat = ClickEndChat ∨ ∃ r, ClickEndChat = SettleEnd r)
    by (left; reflexivity).
  assert (Hstep : step ClickEndChat sample_awaiting = Some (endChat sample_awaiting))
    by reflexivity.
  do 2 (split; [assumption|]).
  destruct (endChat_leaves_controller_open ClickEndChat sample_awaiting
              (endChat sample_awaiting) Hev Hstep) as (Hmsg & _ & _ & Htasks & _).
  split; [exact Hmsg | exact Htasks].
Defined.

(** C2 as the spec states it fails, [closeChat] not being supplied.  After
    the session has been ended and its id erased, a new submission is
    accepted, appended and persisted; and a completion that was outstanding
    when the session was ended is appended and persisted when it resolves. *)
Lemma ended_session_still_sends :
  (∃ s s',
     run (sample_hydration ++ [ClickEndChat; SettleEnd (Resolves false NoData)])
         (initial sample_env ∅) = Some s
     ∧ localStorage s !! session_key = None
     ∧ toasts s = [chatEndedToast]
     ∧ run [Change "hello"; ClickSend 100 101] s = Some s'
     ∧ isLoading s' = true
     ∧ messages s' = messages s ++ [sample_userMessage]
     ∧ last (invoked s') = Some (saveMessage "u1" sample_userMessage))
  ∧ (∃ s s',
       run (sample_hydration
              ++ [Change "hello"; ClickSend 100 101;
                  SettleSend 0 (Resolves false NoData) 100 101;
                  ClickEndChat; SettleEnd (Resolves false NoData)])
           (initial sample_env ∅) = Some s
       ∧ localStorage s !! session_key = None
       ∧ step (SettleSend 0 (Resolves false (Generation (Some "answer"))) 200 202) s
         = Some s'
       ∧ messages s' = messages s ++ [sample_botMessage]
       ∧ last (invoked s') = Some (saveMessage "u1" sample_botMessage)).
Proof.
  split.
  - eexists _, _. split; [vm_compute; reflexivity|].
    split; [vm_compute; reflexivity|]. split; [vm_compute; reflexivity|].
    split; [vm_compute; reflexivity|]. repeat split; vm_compute; reflexivity.
  - eexists _, _. split; [vm_compute; reflexivity|].
    split; [vm_compute; reflexivity|]. split; [vm_compute; reflexivity|].
    split; vm_compute; reflexivity.
Qed.

Lemma transcript_grows_by_turns_witness :
  hydrated sample_idle
  ∧ isLoading sample_idle = false
  ∧ sendTasks sample_idle = []
  ∧ Forall turn_ok [sample_turn "hello" 100; sample_turn "thanks" 1000]
  ∧ ∃ s',
      run ([sample_turn "hello" 100; sample_turn "thanks" 1000] ≫= turn_events)
          sample_idle = Some s'
      ∧ length (messages s') = 5%nat.
Proof.
  assert (Hh : hydrated sample_idle).
  { split; [reflexivity|]. intros sid. vm_compute. discriminate. }
  assert (Hl : isLoading sample_idle = false) by reflexivity.
  assert (Hs : sendTasks sample_idle = []) by reflexivity.
  assert (Hok : Forall turn_ok [sample_turn "hello" 100; sample_turn "thanks" 1000]).
  { constructor; [|constructor; [|constructor]];
      (split; [vm_compute; discriminate | eexists; reflexivity]). }
  do 4 (split; [assumption|]).
  destruct (transcript_grows_by_turns _ sample_idle Hh Hl Hs Hok)
    as [(s' & Hrun & _ & _ & Hseed & _) _].
  exists s'. split; [exact Hrun|]. exact (Hseed eq_refl).
Defined.

(** C7 as the spec states it fails while the hydration fetch is pending.  A
    session is resumed under the stored id "u1"; a message is sent before the
    fetch settles, then the fetch resolves with the one stored message and
    replaces the transcript, which goes from two messages to one; after the
    completion of that turn it holds two messages and not three. *)
Lemma hydration_can_shorten_transcript :
  ∃ s s' s'',
    run [Mount "u2"; Change "hello"; ClickSend 100 101;
         SettleSend 0 (Resolves false NoData) 100 101]
        (initial sample_env {[ session_key := "u1" ]}) = Some s
    ∧ sessionId s = "u1"
    ∧ messages s = initialMessages 0 ++ [sample_userMessage]
    ∧ step (SettleInit (Resolves false (SessionDoc (Some [sample_stored])))) s = Some s'
    ∧ messages s' = [sample_stored]
    ∧ (length (messages s') < length (messages s))%nat
    ∧ run [SettleSend 0 (Resolves false (Generation (Some "answer"))) 200 202;
           SettleSend 0 (Resolves false NoData) 200 202] s' = Some s''
    ∧ isLoading s'' = false
    ∧ messages s'' = [sample_stored; sample_botMessage]
    ∧ length (messages s'') ≠ (length (initialMessages 0) + 2 * 1)%nat.
Proof.
  eexists _, _, _. split; [vm_compute; reflexivity|].
  split; [vm_compute; reflexivity|].
  split; [vm_compute; reflexivity|]. split; [vm_compute; reflexivity|].
  split; [vm_compute; reflexivity|]. split; [vm_compute; lia|].
  split; [vm_compute; reflexivity|]. split; [vm_compute; reflexivity|].
  split; [vm_compute; reflexivity|]. vm_compute. lia.
Qed.

Lemma single_completion_outstanding_witness :
  reachable sample_awaiting
  ∧ sendTasks sample_awaiting ≠ []
  ∧ (length (sendTasks sample_awaiting) ≤ 1)%nat
  ∧ step (ClickSend 300 301) sample_awaiting = None
  ∧ step (KeyEnter 300 301) sample_awaiting = None.
Proof.
  assert (Hreach : reachable sample_awaiting).
  { exists sample_env, ∅,
      (sample_hydration
         ++ [Change "hello"; ClickSend 100 101;
             SettleSend 0 (Resolves false NoData) 100 101]).
    vm_compute. reflexivity. }
  assert (Hne : sendTasks sample_awaiting ≠ []) by (vm_compute; discriminate).
  do 2 (split; [assumption|]).
  destruct (single_completion_outstanding sample_awaiting Hreach)
    as (Hlen & Hbusy & _).
  destruct (Hbusy Hne) as (_ & _ & _ & _ & Hclick & Hkey & _).
  split; [exact Hlen|]. split; [exact (Hclick 300 301) | exact (Hkey 300 301)].
Defined.

(** * Further properties of the chat component *)

(** ** Steps, case by case *)

(** A step that took place is the mount effect, or one handler run on the
    mounted component. *)
Lemma step_inv (e : Event) (s s' : Component) :
  step e s = Some s' →
  (∃ uuid, mounted s = false ∧ s' = initSession uuid (setMounted true s))
  ∨ (mounted s = true
     ∧ ((∃ value, isLoading s = false ∧ s' = setInput value s)
        ∨ (∃ now date, isLoading s = false ∧ s' = handleSend now date s)
        ∨ s' = endChat s
        ∨ s' = setCloseChatCalls (S (closeChatCalls s)) s
        ∨ (∃ t r, initTask s = Some t ∧ s' = initSession_resume t r s)
        ∨ (∃ k t r now date,
             sendTasks s !! k = Some t ∧ s' = handleSend_resume k t r now date s)
        ∨ (∃ r, (0 < endTasks s)%nat ∧ s' = endChat_resume r s))).
Proof.
  intros H. destruct e; unfold step, dispatch in H.
  - destruct (mounted s) eqn:Hm; [done|]. simplify_eq. left. by exists uuid.
  - destruct (mounted s); [|done]. unfold textarea_disabled in H.
    destruct (isLoading s) eqn:Hl; simplify_eq. right. split; [done|].
    left. by exists value.
  - destruct (mounted s); [|done]. unfold textarea_disabled in H.
    destruct (isLoading s) eqn:Hl; simplify_eq. right. split; [done|].
    right; left. by exists now, date.
  - destruct (mounted s); [|done]. unfold sendButton_disabled in H.
    destruct (isLoading s) eqn:Hl; simpl in H; [done|].
    destruct (negb _); simplify_eq. right. split; [done|].
    right; left. by exists now, date.
  - destruct (mounted s); [|done]. unfold suggestions_shown in H.
    destruct (isLoading s) eqn:Hl.
    { by rewrite andb_false_r in H. }
    destruct (_ && _); [|done].
    destruct (suggestedQueries !! index) as [q|]; simpl in H; simplify_eq.
    right. split; [done|]. left. by exists q.
  - destruct (mounted s); simplify_eq. right. split; [done|]. by do 2 right; left.
  - destruct (mounted s), (closeButton_shown s); simplify_eq.
    right. split; [done|]. by do 3 right; left.
  - destruct (mounted s); [|done].
    destruct (initTask s) as [t|] eqn:Ht; simpl in H; simplify_eq.
    right. split; [done|]. do 4 right; left. by exists t, r.
  - destruct (mounted s); [|done].
    destruct (sendTasks s !! k) as [t|] eqn:Ht; simpl in H; simplify_eq.
    right. split; [done|]. do 5 right; left. by exists k, t, r, now, date.
  - destruct (mounted s); [|done]. destruct (endTasks s) eqn:Hn; simplify_eq.
    right. split; [done|]. do 6 right. exists r. split; [lia | done].
Qed.

Lemma step_mounted (e : Event) (s s' : Component) :
  step e s = Some s' → mounted s' = true.
Proof.
  intros H. apply step_inv in H.
  destruct H as [(uuid & _ & ->) | (Hm & H)].
  { unfold initSession. by destruct (resolveSessionId _ _). }
  destruct H as [(v & _ & ->) | [(now & date & _ & ->) | [-> | [-> |
    [(t & r & _ & ->) | [(k & t & r & now & date & _ & ->) | (r & _ & ->)]]]]]].
  - done.
  - unfold handleSend. by destruct (negb _).
  - done.
  - done.
  - destruct t as [sid|]; [destruct r as [|[] [| [[|m l]|] |]] | destruct r]; done.
  - destruct t; simpl; [by destruct r | by destruct (generated r) | by destruct r].
  - by destruct r.
Qed.

Ltac step_cases H :=
  apply step_inv in H;
  destruct H as
    [(?uuid & ?Hm & ->)
    | (?Hm & [(?value & ?Hl & ->) | [(?now & ?date & ?Hl & ->) | [-> | [-> |
         [(?t & ?r & ?Ht & ->) | [(?k & ?t & ?r & ?now & ?date & ?Ht & ->)
         | (?r & ?Hn & ->)]]]]]])].

(** ** Session identity *)

(** X1. Resolving the session id is stable: with a non-empty generated id,
    the id returned is non-empty and is the one stored afterwards, a second
    resolution on the resulting storage returns the same id and storage
    whatever new id is generated, a non-empty stored id is returned with the
    storage untouched, and no other key is written. *)
Theorem resolveSessionId_stable (uuid uuid' : string) (storage : gmap string string) :
  uuid ≠ EmptyString →
  (resolveSessionId uuid storage).1 ≠ EmptyString
  ∧ (resolveSessionId uuid storage).2 !! session_key
    = Some (resolveSessionId uuid storage).1
  ∧ resolveSessionId uuid' (resolveSessionId uuid storage).2
    = resolveSessionId uuid storage
  ∧ (∀ v, storage !! session_key = Some v → v ≠ EmptyString →
       resolveSessionId uuid storage = (v, storage))
  ∧ (∀ key, key ≠ session_key →
       (resolveSessionId uuid storage).2 !! key = storage !! key).
Proof.
  intros Huuid. unfold resolveSessionId.
  destruct (storage !! session_key) as [v|] eqn:Hv; simpl.
  - destruct v as [|c v]; simpl.
    + rewrite lookup_insert_eq. simpl.
      destruct uuid as [|c uuid]; [done|]. simpl.
      repeat split; try done.
      * intros v Hv' Hne. by simplify_eq.
      * intros key Hkey. by rewrite lookup_insert_ne.
    + rewrite Hv. simpl. repeat split; try done.
      intros v' Hv' _. by simplify_eq.
  - rewrite lookup_insert_eq.
    destruct uuid as [|c uuid]; [done|]. simpl.
    repeat split; try done.
    intros key Hkey. by rewrite lookup_insert_ne.
Qed.

(** ** Hydration *)

(** X2. When the hydration fetch resolves without error and with stored
    messages, the transcript becomes exactly the stored list, in its order,
    in place of the seed; nothing is persisted, logged or notified, and
    hydration is over. *)
Theorem hydration_loads_stored_transcript
    (e : Env) (storage : gmap string string) (uuid : string)
    (m : Message) (l : list Message) :
  ∃ s,
    run [Mount uuid; SettleInit (Resolves false (SessionDoc (Some (m :: l))))]
        (initial e storage) = Some s
    ∧ messages s = m :: l
    ∧ invoked s = [getSession (resolveSessionId uuid storage).1]
    ∧ sessionId s = (resolveSessionId uuid storage).1
    ∧ initTask s = None
    ∧ isLoading s = false
    ∧ console s = []
    ∧ toasts s = [].
Proof.
  simpl. unfold initSession. simpl.
  destruct (resolveSessionId uuid storage) as [sid st]. simpl.
  eexists. split; [reflexivity|]. done.
Qed.

Lemma initSession_resume_failed (sid : string) (r : Response) (s : Component) :
  hydration_failed r = true →
  ∃ line, initSession_resume (initSession_getSession sid) r s
          = s |> console_error line |> setInitTask None.
Proof. intros Hfail. destruct r as [|[] [| |]]; try done; by eexists. Qed.

(** X3. A failed hydration fetch is swallowed: the transcript stays the
    seed, nothing is persisted and no toast is shown, one line is logged, and
    the component is idle and takes a submission as usual. *)
Theorem hydration_failure_swallowed
    (e : Env) (storage : gmap string string) (uuid : string) (r : Response) :
  hydration_failed r = true →
  ∃ s,
    run [Mount uuid; SettleInit r] (initial e storage) = Some s
    ∧ messages s = initialMessages (loadedAt e)
    ∧ invoked s = [getSession (resolveSessionId uuid storage).1]
    ∧ toasts s = []
    ∧ length (console s) = 1%nat
    ∧ initTask s = None
    ∧ isLoading s = false
    ∧ ∀ value now date, trim value ≠ EmptyString →
        ∃ s1 s2,
          step (Change value) s = Some s1
          ∧ step (ClickSend now date) s1 = Some s2
          ∧ isLoading s2 = true
          ∧ messages s2 = initialMessages (loadedAt e)
              ++ [{| id := toString now; content := value; role := user;
                     timestamp := date |}].
Proof.
  intros Hfail.
  destruct (resolveSessionId uuid storage) as [sid st] eqn:Hres. cbn [fst].
  set (s0 := initial e storage |> setMounted true |> setLocalStorage st
               |> setSessionId sid |> invoke (getSession sid)
               |> setInitTask (Some (initSession_getSession sid))).
  assert (Hmount : step (Mount uuid) (initial e storage) = Some s0).
  { unfold step, initSession. cbn [initial mounted localStorage setMounted].
    by rewrite Hres. }
  destruct (initSession_resume_failed sid r s0 Hfail) as [line Hline].
  set (s1 := s0 |> console_error line |> setInitTask None) in Hline.
  assert (Hsettle : step (SettleInit r) s0 = Some s1).
  { unfold step, dispatch. cbn [s0 mounted initTask setInitTask mbind option_bind].
    by rewrite Hline. }
  exists s1. split.
  { cbn [run]. rewrite Hmount. cbn [mbind option_bind]. by rewrite Hsettle. }
  do 6 (split; [reflexivity|]).
  intros value now date Hvalue.
  exists (setInput value s1), (handleSend now date (setInput value s1)).
  split; [reflexivity|]. split; [by apply step_ClickSend|].
  by rewrite handleSend_accepted.
Qed.

(** ** What the component keeps in [localStorage] *)

Lemma step_storage_frame (e : Event) (s s' : Component) (key : string) :
  key ≠ session_key → step e s = Some s' →
  localStorage s' !! key = localStorage s !! key.
Proof.
  intros Hkey H. step_cases H.
  - unfold initSession.
    unfold resolveSessionId. simpl.
    destruct (negb _); simpl; [by rewrite lookup_insert_ne | done].
  - done.
  - unfold handleSend. by destruct (negb _).
  - done.
  - done.
  - destruct t as [sid|]; [destruct r as [|[] [| [[|m l]|] |]] | destruct r]; done.
  - destruct t; simpl; [by destruct r | by destruct (generated r) | by destruct r].
  - destruct r; simpl; [done|]. by rewrite lookup_delete_ne.
Qed.

(** X4. The component reads and writes one key of [localStorage] only:
    along any run, every other key keeps the value it had. *)
Theorem localStorage_other_keys_untouched
    (trace : list Event) (s s' : Component) (key : string) :
  key ≠ session_key → run trace s = Some s' →
  localStorage s' !! key = localStorage s !! key.
Proof.
  intros Hkey. revert s. induction trace as [|e trace IH]; intros s Hrun.
  - simpl in Hrun. by simplify_eq.
  - simpl in Hrun. destruct (step e s) as [s1|] eqn:He; simpl in Hrun; [|done].
    rewrite (IH s1 Hrun). by eapply step_storage_frame.
Qed.

Lemma resolveSessionId_stored (uuid : string) (storage : gmap string string) :
  (resolveSessionId uuid storage).2 !! session_key
  = Some (resolveSessionId uuid storage).1.
Proof.
  unfold resolveSessionId.
  destruct (storage !! session_key) as [[|c v]|] eqn:Hv; simpl;
    by rewrite ?lookup_insert_eq.
Qed.

Lemma step_id_kept (e : Event) (s s' : Component) :
  id_kept s → step e s = Some s' → id_kept s'.
Proof.
  intros Hinv H _. step_cases H; try specialize (Hinv Hm).
  - left. unfold initSession.
    pose proof (resolveSessionId_stored uuid (localStorage (setMounted true s))) as Hst.
    destruct (resolveSessionId _ _) as [sid st]. exact Hst.
  - exact Hinv.
  - unfold handleSend. by destruct (negb _).
  - exact Hinv.
  - exact Hinv.
  - destruct t as [sid|]; [destruct r as [|[] [| [[|m l]|] |]] | destruct r];
      exact Hinv.
  - destruct t; simpl; [by destruct r | | by destruct r].
    destruct (generated r); simpl; [exact Hinv|].
    destruct Hinv as [Hinv | [Hgone Hin]]; [by left | right].
    split; [done|]. apply elem_of_app. by left.
  - destruct r as [|err data]; simpl.
    + destruct Hinv as [Hinv | [Hgone Hin]]; [by left | right].
      split; [done|]. apply elem_of_app. by left.
    + right. split; [apply lookup_delete_eq|].
      apply elem_of_app. right. apply list_elem_of_here.
Qed.

(** X5. In every state the component can reach once mounted, the session id
    under which it works is the one stored in [localStorage]; the stored id
    is missing only after an [endChat] has resolved and shown its "Chat ended"
    toast. *)
Theorem stored_id_is_session_id (s : Component) :
  reachable s → mounted s = true →
  localStorage s !! session_key = Some (sessionId s)
  ∨ (localStorage s !! session_key = None ∧ chatEndedToast ∈ toasts s).
Proof.
  intros (e & storage & trace & Hrun).
  eapply (run_invariant id_kept); [apply step_id_kept | | done].
  intros Hm. done.
Qed.

Ltac bound_here :=
  let sid := fresh "sid" in
  let Hs := fresh "Hs" in
  intros sid Hs; simpl in Hs; simplify_eq; simpl; auto.

Lemma step_session_bound (e : Event) (s s' : Component) :
  session_bound s → step e s = Some s' → session_bound s'.
Proof.
  intros Hinv H. pose proof (step_mounted e s s' H) as Hm'.
  unfold session_bound in *. rewrite Hm'. step_cases H; rewrite Hm in Hinv.
  - destruct Hinv as (Hcalls & Htasks & Hinit).
    unfold initSession. destruct (resolveSessionId _ _) as [sid st]. simpl.
    rewrite Hcalls, Htasks. split; [|split].
    + constructor; [bound_here | constructor].
    + constructor.
    + bound_here.
  - exact Hinv.
  - destruct Hinv as (Hcalls & Htasks & Hinit).
    unfold handleSend. destruct (negb _); [done|]. simpl.
    split; [|split; [|done]].
    + apply Forall_app. split; [done|]. constructor; [bound_here | constructor].
    + apply Forall_app. split; [done|]. constructor; [bound_here | constructor].
  - destruct Hinv as (Hcalls & Htasks & Hinit). simpl.
    split; [|done]. apply Forall_app. split; [done|].
    constructor; [bound_here | constructor].
  - exact Hinv.
  - destruct Hinv as (Hcalls & Htasks & Hinit).
    destruct t as [sid|]; [destruct r as [|[] [| [[|m l]|] |]] | destruct r];
      simpl; (split; [|split; [done|]]); try done.
    all: apply Forall_app; (split; [done|]); (constructor; [bound_here | constructor]).
  - destruct Hinv as (Hcalls & Htasks & Hinit).
    assert (Hsid : ∀ sid, task_session t = Some sid → sid = sessionId s).
    { by eapply (Forall_lookup_1 _ _ _ _ Htasks). }
    destruct t as [input0 messages0 sessionId0|sessionId0|].
    + assert (Hcalls' : Forall (λ c, ∀ sid, call_session c = Some sid → sid = sessionId s)
                          (invoked s ++ [geminiHealthChat input0 (previousMessages messages0)])).
      { apply Forall_app. split; [done|]. constructor; [bound_here | constructor]. }
      assert (Htasks' : Forall (λ t, ∀ sid, task_session t = Some sid → sid = sessionId s)
                          (<[k := handleSend_invoke sessionId0]> (sendTasks s))).
      { apply Forall_insert; [done|]. bound_here. }
      by destruct r.
    + assert (Htasks' : Forall (λ t, ∀ sid, task_session t = Some sid → sid = sessionId s)
                          (<[k := handleSend_saveReply]> (sendTasks s))).
      { apply Forall_insert; [done|]. bound_here. }
      simpl. destruct (generated r); simpl; (split; [|split; [done|done]]);
        apply Forall_app; (split; [done|]); (constructor; [bound_here | constructor]).
    + assert (Htasks' : Forall (λ t, ∀ sid, task_session t = Some sid → sid = sessionId s)
                          (delete k (sendTasks s))).
      { by apply Forall_delete. }
      by destruct r.
  - by destruct r.
Qed.

(** X6. Every invocation of the session store that the component has issued,
    in any state it can reach, carries the session id of the component: the
    fetch, the seed, every message and the purge all address one session. *)
Theorem invocations_address_one_session (s : Component) (c : Call) (sid : string) :
  reachable s → c ∈ invoked s → call_session c = Some sid → sid = sessionId s.
Proof.
  intros (e & storage & trace & Hrun) Hin Hsid.
  assert (Hinv : session_bound s).
  { eapply (run_invariant session_bound); [apply step_session_bound | | done].
    by unfold session_bound. }
  unfold session_bound in Hinv. destruct (mounted s).
  - destruct Hinv as (Hcalls & _). rewrite Forall_forall in Hcalls.
    by apply (Hcalls c).
  - destruct Hinv as (Hnil & _). rewrite Hnil in Hin. by apply elem_of_nil in Hin.
Qed.

(** ** Saving and loading *)

(** X7. [saveMessageToMongoDB] swallows its failure: whether the save of the
    user message or of the reply resolves or rejects, [handleSend] continues
    to the same state; a rejection adds one line to the console and nothing
    else, and no outcome of a save shows a toast or touches the transcript. *)
Theorem save_outcome_only_logged
    (k : nat) (t : SendTask) (r r' : Response) (now date : Z) (s : Component) :
  (∀ sid, t ≠ handleSend_invoke sid) →
  setConsole [] (handleSend_resume k t r now date s)
  = setConsole [] (handleSend_resume k t r' now date s)
  ∧ console (handleSend_resume k t r now date s)
    = console s ++ (if r is Rejects then ["Error saving message to MongoDB:"] else [])
  ∧ toasts (handleSend_resume k t r now date s) = toasts s
  ∧ messages (handleSend_resume k t r now date s) = messages s.
Proof.
  intros Hsave. destruct t as [i m sid|sid|]; [|by destruct (Hsave sid)|];
    destruct r, r'; simpl; rewrite ?app_nil_r; done.
Qed.

(** One settling of the only suspended [handleSend]. *)
Lemma settle_single (t : SendTask) (r : Response) (now date : Z) (s : Component) :
  mounted s = true → sendTasks s = [t] →
  step (SettleSend 0 r now date) s = Some (handleSend_resume 0 t r now date s)
  ∧ mounted (handleSend_resume 0 t r now date s) = true
  ∧ sendTasks (handleSend_resume 0 t r now date s)
    = match t with
      | handleSend_saveUser _ _ sid => [handleSend_invoke sid]
      | handleSend_invoke _ => [handleSend_saveReply]
      | handleSend_saveReply => []
      end
  ∧ (t = handleSend_saveReply → isLoading (handleSend_resume 0 t r now date s) = false).
Proof.
  intros Hm Hs. split.
  { apply step_SettleSend; [done|]. by rewrite Hs. }
  destruct t; simpl.
  - destruct r; simpl; by rewrite Hs.
  - destruct (generated r); simpl; by rewrite Hs.
  - destruct r; simpl; by rewrite Hs.
Qed.

Lemma reachable_loading_mounted (s : Component) :
  reachable s → isLoading s = true → mounted s = true.
Proof.
  intros (e & storage & trace & Hrun).
  eapply (run_invariant (λ s, isLoading s = true → mounted s = true)); [| |done].
  - intros ev s0 s1 _ Hstep _. by eapply step_mounted.
  - done.
Qed.

(** X8. The loading state always ends.  In any reachable state that is
    loading, the invocations still awaited by the one suspended [handleSend]
    - at most three - lead back to the idle state however each of them
    settles: resolved, resolved with an error, or rejected. *)
Theorem loading_always_clears (s : Component) (r1 r2 r3 : Response) (now date : Z) :
  reachable s → isLoading s = true →
  ∃ n s',
    (0 < n ≤ 3)%nat
    ∧ run (take n [SettleSend 0 r1 now date; SettleSend 0 r2 now date;
                   SettleSend 0 r3 now date]) s = Some s'
    ∧ isLoading s' = false
    ∧ sendTasks s' = [].
Proof.
  intros Hreach Hl.
  pose proof (reachable_loading_mounted s Hreach Hl) as Hm.
  destruct (reachable_single_flight s Hreach) as [[Hl' _] | (_ & _ & t & Hs)];
    [congruence|].
  destruct t as [input0 messages0 sessionId0|sessionId0|].
  - destruct (settle_single _ r1 now date s Hm Hs) as (H1 & Hm1 & Hs1 & _).
    destruct (settle_single _ r2 now date _ Hm1 Hs1) as (H2 & Hm2 & Hs2 & _).
    destruct (settle_single _ r3 now date _ Hm2 Hs2) as (H3 & _ & Hs3 & Hl3).
    eexists 3%nat, _. split; [lia|]. split.
    { cbn [take run]. rewrite H1. cbn [mbind option_bind]. rewrite H2.
      cbn [mbind option_bind]. rewrite H3. reflexivity. }
    split; [by apply Hl3 | done].
  - destruct (settle_single _ r1 now date s Hm Hs) as (H1 & Hm1 & Hs1 & _).
    destruct (settle_single _ r2 now date _ Hm1 Hs1) as (H2 & _ & Hs2 & Hl2).
    eexists 2%nat, _. split; [lia|]. split.
    { cbn [take run]. rewrite H1. cbn [mbind option_bind]. rewrite H2.
      reflexivity. }
    split; [by apply Hl2 | done].
  - destruct (settle_single _ r1 now date s Hm Hs) as (H1 & _ & Hs1 & Hl1).
    eexists 1%nat, _. split; [lia|]. split.
    { cbn [take run]. rewrite H1. reflexivity. }
    split; [by apply Hl1 | done].
Qed.

(** ** A whole turn *)

(** X9. A turn issues exactly three invocations, in this order, whatever
    their outcomes: the user message is saved, the completion is invoked with
    the submitted text and the window of the transcript before the
    submission, and the reply is saved, the reply being the generated text,
    its fallback, or the fixed error message.  The transcript gains the user
    message and that reply, a toast is shown only when the completion failed,
    and the component is idle again. *)
Theorem turn_invocations_in_order (t : Turn) (s : Component) :
  mounted s = true → isLoading s = false → sendTasks s = [] →
  trim (turn_input t) ≠ EmptyString →
  ∃ s',
    run (turn_events t) s = Some s'
    ∧ invoked s' = invoked s
        ++ [ saveMessage (sessionId s) (turn_user t);
             geminiHealthChat (turn_input t) (previousMessages (messages s));
             saveMessage (sessionId s) (turn_reply t) ]
    ∧ messages s' = messages s ++ [turn_user t; turn_reply t]
    ∧ toasts s' = toasts s
        ++ (if generated (turn_completion t) is Some _ then [] else [noResponseToast])
    ∧ isLoading s' = false
    ∧ sendTasks s' = []
    ∧ input s' = EmptyString.
Proof.
  intros Hm Hl Hs Hne. unfold turn_events.
  set (u := turn_user t). set (b := turn_reply t).
  set (s0 := setInput (turn_input t) s).
  set (s1 := handleSend (turn_now t) (turn_date t) s0).
  set (s2 := handleSend_resume 0
               (handleSend_saveUser (turn_input t) (messages s) (sessionId s))
               (turn_userSaved t) (turn_now t) (turn_date t) s1).
  set (s3 := handleSend_resume 0 (handleSend_invoke (sessionId s))
               (turn_completion t) (turn_replyNow t) (turn_replyDate t) s2).
  set (s4 := handleSend_resume 0 handleSend_saveReply
               (turn_replySaved t) (turn_replyNow t) (turn_replyDate t) s3).
  assert (E1 : s1 =
    s0 |> appendMessage u |> setInput EmptyString |> setIsLoading true
       |> invoke (saveMessage (sessionId s) u)
       |> setSendTasks
            (sendTasks s ++ [handleSend_saveUser (turn_input t) (messages s) (sessionId s)])).
  { by apply (handleSend_accepted (turn_now t) (turn_date t) s0). }
  assert (H0 : step (Change (turn_input t)) s = Some s0).
  { unfold step, dispatch, textarea_disabled. by rewrite Hm, Hl. }
  assert (H1 : step (if turn_byKey t then KeyEnter (turn_now t) (turn_date t)
                     else ClickSend (turn_now t) (turn_date t)) s0 = Some s1).
  { destruct (turn_byKey t); [|by apply step_ClickSend].
    unfold step, dispatch, textarea_disabled. simpl. by rewrite Hm, Hl. }
  assert (H2 : step (SettleSend 0 (turn_userSaved t) (turn_now t) (turn_date t)) s1
               = Some s2).
  { apply step_SettleSend; rewrite E1; [done|]. simpl. by rewrite Hs. }
  assert (F2 : mounted s2 = true ∧ input s2 = EmptyString
               ∧ sendTasks s2 = [handleSend_invoke (sessionId s)]
               ∧ toasts s2 = toasts s ∧ messages s2 = messages s ++ [u]
               ∧ invoked s2 = invoked s
                   ++ [saveMessage (sessionId s) u;
                       geminiHealthChat (turn_input t) (previousMessages (messages s))]).
  { unfold s2. rewrite E1.
    destruct (turn_userSaved t); simpl; by rewrite Hs, <- app_assoc. }
  destruct F2 as (Hm2 & Hi2 & Hs2 & Ht2 & Hmsg2 & Hinv2).
  clearbody s2 s1.
  assert (H3 : step (SettleSend 0 (turn_completion t) (turn_replyNow t)
                       (turn_replyDate t)) s2 = Some s3).
  { apply step_SettleSend; [done|]. by rewrite Hs2. }
  assert (F3 : mounted s3 = true ∧ input s3 = EmptyString
               ∧ sendTasks s3 = [handleSend_saveReply]
               ∧ toasts s3 = toasts s
                   ++ (if generated (turn_completion t) is Some _ then []
                       else [noResponseToast])
               ∧ messages s3 = messages s ++ [u; b]
               ∧ invoked s3 = invoked s
                   ++ [saveMessage (sessionId s) u;
                       geminiHealthChat (turn_input t) (previousMessages (messages s));
                       saveMessage (sessionId s) b]).
  { unfold s3, b, turn_reply, handleSend_resume.
    destruct (generated (turn_completion t)); simpl;
      rewrite Hm2, Hi2, Hs2, Ht2, Hmsg2, Hinv2, <- !app_assoc, ?app_nil_r; done. }
  destruct F3 as (Hm3 & Hi3 & Hs3 & Ht3 & Hmsg3 & Hinv3).
  clearbody s3.
  assert (H4 : step (SettleSend 0 (turn_replySaved t) (turn_replyNow t)
                       (turn_replyDate t)) s3 = Some s4).
  { apply step_SettleSend; [done|]. by rewrite Hs3. }
  assert (F4 : invoked s4 = invoked s3 ∧ messages s4 = messages s3
               ∧ toasts s4 = toasts s3 ∧ isLoading s4 = false
               ∧ sendTasks s4 = [] ∧ input s4 = EmptyString).
  { unfold s4. destruct (turn_replySaved t); simpl; by rewrite Hs3, Hi3. }
  destruct F4 as (Hinv4 & Hmsg4 & Ht4 & Hl4 & Hs4 & Hi4).
  clearbody s4.
  exists s4. split.
  { cbn [run]. rewrite H0. cbn [mbind option_bind]. rewrite H1.
    cbn [mbind option_bind]. rewrite H2. cbn [mbind option_bind]. rewrite H3.
    cbn [mbind option_bind]. by rewrite H4. }
  by rewrite Hinv4, Hmsg4, Ht4.
Qed.

(** X10. A completion that resolves without error yields the reply text as
    it is when it is non-empty, and the fallback text when the text is
    missing or empty; in both cases the reply has the [bot] role and an id
    one past the clock reading, and neither a toast nor a console line is
    produced.  No reply is ever empty. *)
Theorem reply_text_or_fallback
    (k : nat) (sessionId0 : string) (generatedText : option string)
    (now date : Z) (s : Component) :
  mounted s = true →
  sendTasks s !! k = Some (handleSend_invoke sessionId0) →
  ∃ s' reply,
    step (SettleSend k (Resolves false (Generation generatedText)) now date) s = Some s'
    ∧ messages s' = messages s ++ [reply]
    ∧ role reply = bot
    ∧ id reply = toString (now + 1)
    ∧ content reply ≠ EmptyString
    ∧ (∀ text, generatedText = Some text → text ≠ EmptyString → content reply = text)
    ∧ (generatedText = None ∨ generatedText = Some EmptyString →
       content reply = fallbackText)
    ∧ toasts s' = toasts s
    ∧ console s' = console s
    ∧ content (errorMessage now date) ≠ EmptyString.
Proof.
  intros Hm Ht. eexists _, _. split; [by apply step_SettleSend|].
  simpl. do 3 (split; [reflexivity|]). split; [|split; [|split]].
  - destruct generatedText as [[|c text]|]; done.
  - intros text -> Hne. by destruct text.
  - by intros [-> | ->].
  - done.
Qed.

(** ** What the transcript holds *)

Lemma step_appended (e : Event) (s s' : Component) :
  step e s = Some s' →
  messages s' = messages s
  ∨ (∃ m, messages s' = messages s ++ [m] ∧ said m)
  ∨ (∃ sid, initTask s = Some (initSession_getSession sid)).
Proof.
  intros H. step_cases H.
  - left. unfold initSession. by destruct (resolveSessionId _ _).
  - by left.
  - unfold handleSend. destruct (truthy (trim (input s))) eqn:Hin; simpl; [|by left].
    right; left. eexists. split; [reflexivity|]. unfold said. simpl.
    intros Hblank. by rewrite Hblank in Hin.
  - by left.
  - by left.
  - destruct t as [sid|]; [by right; right; exists sid|]. left. by destruct r.
  - destruct t; simpl.
    + left. by destruct r.
    + right; left. destruct (generated r) as [[[|c text]|]|]; simpl;
        (eexists; split; [reflexivity|]); done.
    + left. by destruct r.
  - left. by destruct r.
Qed.

(** X11. Once the hydration fetch has settled, the component only ever adds
    messages that say something: a user message is added only if it is not
    blank, and a message of the assistant is never empty.  If every message
    of the transcript says something, this stays so along any run. *)
Theorem transcript_messages_say_something
    (trace : list Event) (s s' : Component) :
  hydrated s → Forall said (messages s) → run trace s = Some s' →
  Forall said (messages s').
Proof.
  revert s. induction trace as [|e trace IH]; intros s Hh Hsaid Hrun.
  - simpl in Hrun. by simplify_eq.
  - simpl in Hrun. destruct (step e s) as [s1|] eqn:He; simpl in Hrun; [|done].
    apply (IH s1); [by eapply step_hydrated | | done].
    destruct (step_appended e s s1 He) as [-> | [(m & -> & Hm) | (sid & Hsid)]].
    + done.
    + apply Forall_app. split; [done|]. by constructor.
    + by destruct (proj2 Hh sid).
Qed.

(** X12. The suggested queries are offered for the first message only: once
    the hydration fetch has settled and the transcript holds more than one
    message, no run shows them again or lets one be clicked. *)
Theorem suggestions_gone_for_good (trace : list Event) (s s' : Component) :
  hydrated s → (1 < length (messages s))%nat → run trace s = Some s' →
  suggestions_shown s' = false
  ∧ ∀ index, step (ClickSuggested index) s' = None.
Proof.
  intros Hh Hlen Hrun.
  destruct (run_length_mono trace s s' Hh Hrun) as [_ Hle].
  assert (Hshown : suggestions_shown s' = false).
  { unfold suggestions_shown. apply andb_false_iff. left.
    apply Nat.leb_gt. lia. }
  split; [done|]. intros index. unfold step, dispatch. rewrite Hshown.
  by destruct (mounted s').
Qed.

(** ** The send button *)

Lemma blank_cons (c : ascii) (t : string) :
  blank (String c t) ↔ isWhiteSpace c = true ∧ blank t.
Proof.
  unfold blank. simpl. split.
  - intros H. split; [apply H; left | intros c' Hc'; apply H; by right].
  - intros [Hc Ht] c' Hc'. apply elem_of_cons in Hc' as [-> | Hc']; auto.
Qed.

Lemma blank_empty : blank EmptyString.
Proof. intros c Hc. by apply elem_of_nil in Hc. Qed.

Lemma trimStart_blank (t : string) : trimStart t = EmptyString ↔ blank t.
Proof.
  induction t as [|c t IH]; simpl.
  - split; [intros _; apply blank_empty | done].
  - rewrite blank_cons. destruct (isWhiteSpace c); [|split; [done | by intros [? _]]].
    rewrite IH. tauto.
Qed.

Lemma trimEnd_blank (t : string) : trimEnd t = EmptyString ↔ blank t.
Proof.
  induction t as [|c t IH]; simpl.
  - split; [intros _; apply blank_empty | done].
  - rewrite blank_cons, <- IH.
    destruct (trimEnd t); destruct (isWhiteSpace c); intuition congruence.
Qed.

Lemma trimStart_head (t : string) :
  trimStart t = EmptyString
  ∨ ∃ c r, trimStart t = String c r ∧ isWhiteSpace c = false.
Proof.
  induction t as [|c t IH]; simpl; [by left|].
  destruct (isWhiteSpace c) eqn:Hc; [done|]. right. by exists c, t.
Qed.

Lemma trim_blank (t : string) : trim t = EmptyString ↔ blank t.
Proof.
  unfold trim. rewrite trimEnd_blank. split.
  - intros Hb. apply trimStart_blank.
    destruct (trimStart_head t) as [Ht | (c & r & Ht & Hc)]; [done|].
    rewrite Ht in Hb. apply blank_cons in Hb as [Hc' _]. congruence.
  - intros Hb. apply trimStart_blank in Hb. rewrite Hb. apply blank_empty.
Qed.

(** X13. The send button is disabled exactly when a completion is loading
    or every character of the input is white space (the empty input
    included); a click on it is possible, and starts a submission, exactly
    when the mounted component is not loading and the input holds a
    character that is not white space. *)
Theorem send_enabled_iff_something_typed (now date : Z) (s : Component) :
  (sendButton_disabled s = true ↔ isLoading s = true ∨ blank (input s))
  ∧ (step (ClickSend now date) s = Some (handleSend now date s)
     ∧ isLoading (handleSend now date s) = true
     ↔ mounted s = true ∧ isLoading s = false
       ∧ ∃ c, c ∈ list_ascii_of_string (input s) ∧ isWhiteSpace c = false).
Proof.
  assert (Htruthy : truthy (trim (input s)) = false ↔ blank (input s)).
  { rewrite <- trim_blank. by destruct (trim (input s)). }
  assert (Hvisible : ¬ blank (input s)
            ↔ ∃ c, c ∈ list_ascii_of_string (input s) ∧ isWhiteSpace c = false).
  { unfold blank. split.
    - intros Hnb. induction (list_ascii_of_string (input s)) as [|c l IH].
      + destruct Hnb. intros c Hc. by apply elem_of_nil in Hc.
      + destruct (isWhiteSpace c) eqn:Hc.
        * destruct IH as (c' & Hin & Hc').
          { intros Hall. apply Hnb. intros c' Hc'.
            apply elem_of_cons in Hc' as [-> | Hc']; auto. }
          exists c'. split; [by right | done].
        * exists c. split; [by left | done].
    - intros (c & Hin & Hc) Hall. specialize (Hall c Hin). congruence. }
  split.
  - unfold sendButton_disabled. rewrite orb_true_iff, negb_true_iff, Htruthy. done.
  - rewrite <- Hvisible, <- Htruthy. unfold step, dispatch, sendButton_disabled.
    split.
    + intros [Hstep Hl]. destruct (mounted s); [|done].
      destruct (isLoading s); [done|]. simpl in Hstep.
      destruct (truthy (trim (input s))); simpl in Hstep; [|done]. by repeat split.
    + intros (-> & Hl & Hne). rewrite Hl. simpl.
      destruct (truthy (trim (input s))) eqn:Hin; [|done]. simpl.
      split; [done|]. unfold handleSend. by rewrite Hin.
Qed.

(** ** Message ids *)

Lemma toString_inj (n n' : Z) : toString n = toString n' → n = n'.
Proof.
  unfold toString. intros H. apply DecimalZ.to_int_inj.
  assert (Hok : ∀ z, Z.to_int z ≠ Decimal.Pos Decimal.Nil
                     ∧ Z.to_int z ≠ Decimal.Neg Decimal.Nil).
  { intros [|p|p]; simpl; split; try discriminate;
      intros Hp; injection Hp; apply DecimalPos.Unsigned.to_uint_nonnil. }
  destruct (Hok n) as [Hn1 Hn2]. destruct (Hok n') as [Hn1' Hn2'].
  pose proof (NilZero.isi _ Hn1 Hn2) as E. pose proof (NilZero.isi _ Hn1' Hn2') as E'.
  rewrite H in E. congruence.
Qed.

(** X14. Message ids are the decimal clock readings: two ids are equal
    exactly when the readings are.  Within a turn the user message has id
    [now] and the reply [replyNow + 1], so the two differ whenever the clock
    has not gone back by one millisecond between the submission and the
    response; a message submitted exactly one millisecond after a reply was
    created gets the id of that reply. *)
Theorem message_ids_follow_clock (t next : Turn) :
  (id (turn_user t) = id (turn_reply t) ↔ turn_now t = turn_replyNow t + 1)
  ∧ (turn_now t ≤ turn_replyNow t → id (turn_user t) ≠ id (turn_reply t))
  ∧ (id (turn_user next) = id (turn_reply t) ↔ turn_now next = turn_replyNow t + 1)
  ∧ (id (turn_user next) = id (turn_user t) ↔ turn_now next = turn_now t).
Proof.
  assert (Hreply : id (turn_reply t) = toString (turn_replyNow t + 1)).
  { unfold turn_reply. by destruct (generated (turn_completion t)). }
  rewrite Hreply. simpl.
  assert (Hiff : ∀ a b, toString a = toString b ↔ a = b).
  { intros a b. split; [apply toString_inj | by intros ->]. }
  rewrite !Hiff. repeat split; try done. lia.
Qed.

(** * Properties of the sample appointment setup *)

Ltac setup_cases w :=
  destruct w as [iso ppp [msg1|[uid1|]] [msg2|[msg2|]] [msg3|[[] [uid3|]]] [msg4|[]]];
  unfold SampleAppointmentsSetup.createSampleAppointment,
    SampleAppointmentsSetup.tryBlock, SampleAppointmentsSetup.insertOrThrow,
    SampleAppointmentsSetup.stored, SampleAppointmentsSetup.owner;
  simpl.

(** X15. [createSampleAppointment] always comes to an end with the loading
    flag off and exactly one toast shown, whatever rejects or fails on the
    way: a plain toast when it has marked the appointment as created, and a
    destructive one, with one console line, when it has not.  It first asks
    for the session, and it sends at most one row. *)
Theorem createSampleAppointment_always_reports
    (w : SampleAppointmentsSetup.World) (s : SampleAppointmentsSetup.Setup) :
  SampleAppointmentsSetup.isCreated s = false →
  SampleAppointmentsSetup.isLoading (SampleAppointmentsSetup.createSampleAppointment w s)
    = false
  ∧ (∃ t, SampleAppointmentsSetup.toasts
            (SampleAppointmentsSetup.createSampleAppointment w s)
          = SampleAppointmentsSetup.toasts s ++ [t]
          ∧ destructive t
            = negb (SampleAppointmentsSetup.isCreated
                      (SampleAppointmentsSetup.createSampleAppointment w s))
          ∧ SampleAppointmentsSetup.console
              (SampleAppointmentsSetup.createSampleAppointment w s)
            = SampleAppointmentsSetup.console s
                ++ (if destructive t then ["Error creating sample appointment:"] else []))
  ∧ (∃ rest, SampleAppointmentsSetup.authCalls
               (SampleAppointmentsSetup.createSampleAppointment w s)
             = SampleAppointmentsSetup.authCalls s
                 ++ SampleAppointmentsSetup.getSession :: rest)
  ∧ (∃ rows, SampleAppointmentsSetup.inserts
               (SampleAppointmentsSetup.createSampleAppointment w s)
             = SampleAppointmentsSetup.inserts s ++ rows
             ∧ (length rows ≤ 1)%nat).
Proof.
  intros Hnew. destruct s as [l c a i t k]. simpl in Hnew. subst c.
  setup_cases w;
    (split; [reflexivity|]); (split; [eexists; split; [reflexivity|];
       split; [reflexivity|]; simpl; by rewrite ?app_nil_r|]);
    (split; [eexists; simpl; rewrite <- ?app_assoc; reflexivity|]);
    first [ exists []; simpl; rewrite app_nil_r; split; [reflexivity | lia]
          | eexists [_]; simpl; split; [reflexivity | lia] ].
Qed.

(** X16. The appointment is marked as created only if one row was sent, for
    the owner the handler chose, and the insert resolved without error.
    Conversely a sent row that was stored goes unmarked, and is reported as
    an error, in one case only: the sign-out of the sample patient
    rejected. *)
Theorem created_means_stored
    (w : SampleAppointmentsSetup.World) (s : SampleAppointmentsSetup.Setup) :
  SampleAppointmentsSetup.isCreated s = false →
  (SampleAppointmentsSetup.isCreated (SampleAppointmentsSetup.createSampleAppointment w s)
     = true →
   SampleAppointmentsSetup.stored w = true
   ∧ ∃ userId,
       SampleAppointmentsSetup.owner w = Some userId
       ∧ SampleAppointmentsSetup.inserts
           (SampleAppointmentsSetup.createSampleAppointment w s)
         = SampleAppointmentsSetup.inserts s
             ++ [SampleAppointmentsSetup.appointmentData w userId])
  ∧ (SampleAppointmentsSetup.isCreated
       (SampleAppointmentsSetup.createSampleAppointment w s) = false →
     SampleAppointmentsSetup.stored w = true →
     SampleAppointmentsSetup.inserts (SampleAppointmentsSetup.createSampleAppointment w s)
       ≠ SampleAppointmentsSetup.inserts s →
     ∃ message userId,
       SampleAppointmentsSetup.signedOut w = SampleAppointmentsSetup.Rejected message
       ∧ SampleAppointmentsSetup.sessionUser w = SampleAppointmentsSetup.Resolved None
       ∧ SampleAppointmentsSetup.signedIn w
         = SampleAppointmentsSetup.Resolved (false, Some userId)).
Proof.
  intros Hnew. destruct s as [l c a i t k]. simpl in Hnew. subst c.
  setup_cases w; split; intros; simplify_eq; eauto.
Qed.

(** X17. The handler signs in as the sample patient only when nobody is
    signed in, and signs out only after it has signed in as the sample
    patient and stored the row: with a user signed in it makes no other call
    on the authentication service than the session request, and the row it
    sends carries that user's id.  With nobody signed in and the sample
    sign-in refused or without a user, the row carries the placeholder id. *)
Theorem sample_sign_in_only_when_signed_out
    (w : SampleAppointmentsSetup.World) (s : SampleAppointmentsSetup.Setup) :
  (∀ userId,
     SampleAppointmentsSetup.sessionUser w = SampleAppointmentsSetup.Resolved (Some userId) →
     SampleAppointmentsSetup.authCalls (SampleAppointmentsSetup.createSampleAppointment w s)
       = SampleAppointmentsSetup.authCalls s ++ [SampleAppointmentsSetup.getSession]
     ∧ SampleAppointmentsSetup.inserts (SampleAppointmentsSetup.createSampleAppointment w s)
       = SampleAppointmentsSetup.inserts s
           ++ [SampleAppointmentsSetup.appointmentData w userId])
  ∧ (SampleAppointmentsSetup.signOut
       ∈ SampleAppointmentsSetup.authCalls (SampleAppointmentsSetup.createSampleAppointment w s) →
     SampleAppointmentsSetup.signOut ∉ SampleAppointmentsSetup.authCalls s →
     SampleAppointmentsSetup.sessionUser w = SampleAppointmentsSetup.Resolved None
     ∧ SampleAppointmentsSetup.stored w = true
     ∧ ∃ userId, SampleAppointmentsSetup.signedIn w
                 = SampleAppointmentsSetup.Resolved (false, Some userId))
  ∧ (SampleAppointmentsSetup.sessionUser w = SampleAppointmentsSetup.Resolved None →
     (∃ refused userId, SampleAppointmentsSetup.signedIn w
                        = SampleAppointmentsSetup.Resolved (refused, userId)
                        ∧ (refused = true ∨ userId = None)) →
     SampleAppointmentsSetup.inserts (SampleAppointmentsSetup.createSampleAppointment w s)
       = SampleAppointmentsSetup.inserts s
           ++ [SampleAppointmentsSetup.appointmentData w
                 SampleAppointmentsSetup.placeholderId]).
Proof.
  destruct s as [l c a i t k].
  assert (Hout : ∀ calls : list SampleAppointmentsSetup.AuthCall,
            SampleAppointmentsSetup.signOut ∈ a ++ calls →
            SampleAppointmentsSetup.signOut ∉ a →
            SampleAppointmentsSetup.signOut ∈ calls).
  { intros calls Hin Hnot. apply elem_of_app in Hin as [Hin | Hin]; done. }
  setup_cases w; (split; [|split]).
  all: try (intros userId Huser; simplify_eq; done).
  all: try (intros Hin Hnot; rewrite <- ?app_assoc in Hin; apply Hout in Hin; [|done];
            simpl in Hin;
            repeat (apply elem_of_cons in Hin as [Hin | Hin]; [discriminate|]);
            by apply elem_of_nil in Hin).
  all: try (intros Hin Hnot; eauto; fail).
  all: try (intros _ (refused & userId & Heq & Hor); simplify_eq;
            try (destruct Hor; discriminate); done).
  all: try (intros Huser; discriminate).
Qed.

(** * Properties of the booking page *)

(** X18. Whatever the random availabilities, [generateTimeSlots] yields 18
    slots, and reading the label of the slot at index [i] back, as
    [handlePayment] does for the selected slot, gives the hour [9 + i / 2] on
    the 24-hour clock and the minutes [0] or [30]: the slots run from 9:00
    to 17:30 in steps of half an hour, afternoon labels included, and the
    slot at index [i] has the availability drawn for it. *)
Theorem generated_slots_parse_to_their_time (isAvailable : nat → bool) :
  length (BookAppointment.generateTimeSlots isAvailable) = 18%nat
  ∧ ∀ (i : nat) slot,
      BookAppointment.generateTimeSlots isAvailable !! i = Some slot →
      BookAppointment.appointmentClock (BookAppointment.time slot)
        = (Some (9 + Z.of_nat i / 2), Some (30 * (Z.of_nat i mod 2)))
      ∧ BookAppointment.available slot = isAvailable i.
Proof.
  split; [reflexivity|]. intros i slot Hslot.
  do 18 (destruct i as [|i];
         [ vm_compute in Hslot; injection Hslot as <-; split; vm_compute; reflexivity |]).
  vm_compute in Hslot. discriminate.
Qed.

(** X19. [handlePayment] converts a 12-hour label to the 24-hour clock as
    it should: for every hour from 1 to 12 and every minute, [h:mm AM] is
    read as hour [h mod 12] and [h:mm PM] as hour [h mod 12 + 12], so that
    12 AM is 0 and 12 PM is 12, and the minutes are read as they are
    written. *)
Theorem clock_label_parses (h m : Z) (pm : bool) :
  1 ≤ h ≤ 12 → 0 ≤ m ≤ 59 →
  BookAppointment.appointmentClock (BookAppointment.clockLabel h m pm)
  = (Some (h mod 12 + (if pm then 12 else 0)), Some m).
Proof.
  intros Hh Hm.
  assert (Hall :
    forallb (λ h, forallb (λ m, forallb (λ pm : bool,
      bool_decide
        (BookAppointment.appointmentClock (BookAppointment.clockLabel h m pm)
         = (Some (h mod 12 + (if pm then 12 else 0)), Some m)))
      [true; false]) (seqZ 0 60)) (seqZ 1 12) = true)
    by (vm_compute; reflexivity).
  rewrite forallb_forall in Hall.
  assert (Hh' : In h (seqZ 1 12)).
  { apply list_elem_of_In, elem_of_seqZ. lia. }
  specialize (Hall h Hh'). rewrite forallb_forall in Hall.
  assert (Hm' : In m (seqZ 0 60)).
  { apply list_elem_of_In, elem_of_seqZ. lia. }
  specialize (Hall m Hm'). rewrite forallb_forall in Hall.
  assert (Hpm : In pm [true; false]) by (destruct pm; simpl; auto).
  specialize (Hall pm Hpm). by apply bool_decide_eq_true in Hall.
Qed.

(** ** Fees *)

Lemma digits_uint_pos (d : Decimal.uint) (a : positive) :
  BookAppointment.digits 10 (NilEmpty.string_of_uint d) (Some (Z.pos a))
  = Some (Z.pos (Pos.of_uint_acc d a)).
Proof.
  revert a. induction d; intros a; simpl; [done|..]; rewrite <- IHd; do 2 f_equal;
    match goal with
    | |- context [Z.of_nat (nat_of_ascii ?c)] =>
        let v := eval vm_compute in (Z.of_nat (nat_of_ascii c)) in
        change (Z.of_nat (nat_of_ascii c)) with v
    end; lia.
Qed.

Lemma digits_uint (d : Decimal.uint) :
  BookAppointment.digits 10 (NilEmpty.string_of_uint d) (Some 0)
  = Some (Z.of_N (Pos.of_uint d))
  ∧ BookAppointment.digits 10 (NilEmpty.string_of_uint d) None
    = if d is Decimal.Nil then None else Some (Z.of_N (Pos.of_uint d)).
Proof.
  induction d as [|d [IH _]|d _|d _|d _|d _|d _|d _|d _|d _|d _]; simpl;
    [done|done|..]; split; apply digits_uint_pos.
Qed.

Lemma parseInt_uint (d : Decimal.uint) :
  d ≠ Decimal.Nil →
  BookAppointment.parseInt (Some (NilEmpty.string_of_uint d))
  = Some (Z.of_N (Pos.of_uint d)).
Proof.
  intros Hd. pose proof (proj2 (digits_uint d)) as Hdigits.
  destruct d as [|d|d|d|d|d|d|d|d|d|d]; [done|..];
    try (unfold BookAppointment.parseInt; cbn [default trimStart isWhiteSpace];
         simpl in *; rewrite Hdigits; simpl; f_equal; lia).
  destruct d as [|d|d|d|d|d|d|d|d|d|d]; [done|..];
    unfold BookAppointment.parseInt; cbn [default trimStart isWhiteSpace];
    simpl in *; rewrite Hdigits; simpl; f_equal; lia.
Qed.

Lemma keepDigits_uint (d : Decimal.uint) :
  BookAppointment.keepDigits (NilEmpty.string_of_uint d) = NilEmpty.string_of_uint d.
Proof. induction d; simpl; [done|..]; by rewrite IHd. Qed.

(** The decimal writing of a natural number is read back by [parseInt], and
    consists of digits only. *)
Lemma toString_digits (n : Z) :
  0 ≤ n →
  BookAppointment.parseInt (Some (toString n)) = Some n
  ∧ BookAppointment.keepDigits (toString n) = toString n.
Proof.
  intros Hn. unfold toString. destruct n as [|p|p]; [done| |lia].
  simpl. pose proof (DecimalPos.Unsigned.to_uint_nonnil p) as Hnil.
  pose proof (DecimalPos.Unsigned.of_to p) as Hof.
  unfold NilZero.string_of_uint.
  destruct (Pos.to_uint p) as [|d|d|d|d|d|d|d|d|d|d] eqn:Hd; [done|..];
    rewrite parseInt_uint, keepDigits_uint, Hof by done; done.
Qed.

(** X20. For a fee written as one character that is not a digit followed by
    the decimal digits of [n], with [100 n] in the range where numbers are
    exact, the amount stored and paid is [n], the
    Razorpay order is for [100 n], and the payment dialog shows the fee as it
    is for an in-person visit, [n - 30] for video and [n - 50] for chat.  The
    amount stored and paid is the same for the three consultation types. *)
Theorem fee_amount_of_plain_fee (symbol : ascii) (n : Z) :
  0 ≤ n → n * 100 ≤ 2 ^ 53 → BookAppointment.isDigit symbol = false →
  BookAppointment.feeAmount (String symbol (toString n)) = Some n
  ∧ BookAppointment.orderAmount (String symbol (toString n)) = Some (n * 100)
  ∧ BookAppointment.totalAmount "in-person" (String symbol (toString n))
    = String symbol (toString n)
  ∧ BookAppointment.totalAmount "video" (String symbol (toString n))
    = "$" +:+ toString (n - 30)
  ∧ BookAppointment.totalAmount "chat" (String symbol (toString n))
    = "$" +:+ toString (n - 50).
Proof.
  intros Hn _ Hsym. destruct (toString_digits n Hn) as [Hparse Hkeep].
  assert (Hfee : BookAppointment.feeAmount (String symbol (toString n)) = Some n).
  { unfold BookAppointment.feeAmount. cbn [BookAppointment.keepDigits].
    by rewrite Hsym, Hkeep. }
  split; [done|]. split; [unfold BookAppointment.orderAmount; by rewrite Hfee|].
  unfold BookAppointment.totalAmount. cbn [BookAppointment.substring1].
  rewrite Hparse. done.
Qed.

(** * The further properties on sample runs *)

Lemma sample_awaiting_reachable : reachable sample_awaiting.
Proof.
  exists sample_env, ∅,
    (sample_hydration
       ++ [Change "hello"; ClickSend 100 101;
           SettleSend 0 (Resolves false NoData) 100 101]).
  vm_compute. reflexivity.
Defined.

Lemma sample_idle_hydrated : hydrated sample_idle.
Proof. split; [reflexivity|]. intros sid. vm_compute. discriminate. Defined.

Lemma resolveSessionId_stable_witness :
  "u1" ≠ EmptyString
  ∧ resolveSessionId "u2" (resolveSessionId "u1" ∅).2 = resolveSessionId "u1" ∅
  ∧ (resolveSessionId "u1" ∅).2 !! session_key = Some "u1".
Proof.
  assert (Hne : "u1" ≠ EmptyString) by discriminate.
  destruct (resolveSessionId_stable "u1" "u2" ∅ Hne) as (_ & Hstored & Hagain & _).
  split; [exact Hne|]. split; [exact Hagain | exact Hstored].
Defined.

Lemma hydration_failure_swallowed_witness :
  hydration_failed Rejects = true
  ∧ ∃ s, run [Mount "u1"; SettleInit Rejects] (initial sample_env ∅) = Some s
         ∧ messages s = initialMessages 0
         ∧ invoked s = [getSession "u1"].
Proof.
  assert (Hfail : hydration_failed Rejects = true) by reflexivity.
  destruct (hydration_failure_swallowed sample_env ∅ "u1" Rejects Hfail)
    as (s & Hrun & Hmsg & Hinv & _).
  split; [exact Hfail|]. exists s. split; [exact Hrun|]. split; [exact Hmsg | exact Hinv].
Defined.

Lemma localStorage_other_keys_untouched_witness :
  "selectedDoctor" ≠ session_key
  ∧ run sample_hydration (initial sample_env {[ "selectedDoctor" := "Dr. Rao" ]})
    = Some (after sample_hydration (initial sample_env {[ "selectedDoctor" := "Dr. Rao" ]}))
  ∧ localStorage (after sample_hydration
                    (initial sample_env {[ "selectedDoctor" := "Dr. Rao" ]}))
      !! "selectedDoctor"
    = Some "Dr. Rao".
Proof.
  assert (Hkey : "selectedDoctor" ≠ session_key) by discriminate.
  assert (Hrun : run sample_hydration (initial sample_env {[ "selectedDoctor" := "Dr. Rao" ]})
    = Some (after sample_hydration (initial sample_env {[ "selectedDoctor" := "Dr. Rao" ]})))
    by (vm_compute; reflexivity).
  split; [exact Hkey|]. split; [exact Hrun|].
  rewrite (localStorage_other_keys_untouched _ _ _ _ Hkey Hrun). reflexivity.
Defined.

Lemma stored_id_is_session_id_witness :
  reachable sample_awaiting
  ∧ mounted sample_awaiting = true
  ∧ (localStorage sample_awaiting !! session_key = Some (sessionId sample_awaiting)
     ∨ (localStorage sample_awaiting !! session_key = None
        ∧ chatEndedToast ∈ toasts sample_awaiting)).
Proof.
  assert (Hm : mounted sample_awaiting = true) by reflexivity.
  split; [exact sample_awaiting_reachable|]. split; [exact Hm|].
  exact (stored_id_is_session_id sample_awaiting sample_awaiting_reachable Hm).
Defined.

Lemma invocations_address_one_session_witness :
  reachable sample_awaiting
  ∧ saveMessage "u1" sample_userMessage ∈ invoked sample_awaiting
  ∧ call_session (saveMessage "u1" sample_userMessage) = Some "u1"
  ∧ "u1" = sessionId sample_awaiting.
Proof.
  assert (Hin : saveMessage "u1" sample_userMessage ∈ invoked sample_awaiting).
  { vm_compute. do 2 apply list_elem_of_further. apply list_elem_of_here. }
  assert (Hsid : call_session (saveMessage "u1" sample_userMessage) = Some "u1")
    by reflexivity.
  split; [exact sample_awaiting_reachable|]. split; [exact Hin|]. split; [exact Hsid|].
  exact (invocations_address_one_session _ _ _ sample_awaiting_reachable Hin Hsid).
Defined.

Lemma save_outcome_only_logged_witness :
  (∀ sid, handleSend_saveReply ≠ handleSend_invoke sid)
  ∧ setConsole [] (handleSend_resume 0 handleSend_saveReply Rejects 0 0 sample_awaiting)
    = setConsole []
        (handleSend_resume 0 handleSend_saveReply (Resolves false NoData) 0 0
           sample_awaiting).
Proof.
  assert (Hsave : ∀ sid, handleSend_saveReply ≠ handleSend_invoke sid)
    by (intros sid; discriminate).
  split; [exact Hsave|].
  exact (proj1 (save_outcome_only_logged 0 handleSend_saveReply Rejects
                  (Resolves false NoData) 0 0 sample_awaiting Hsave)).
Defined.

Lemma loading_always_clears_witness :
  reachable sample_awaiting
  ∧ isLoading sample_awaiting = true
  ∧ ∃ n s',
      (0 < n ≤ 3)%nat
      ∧ run (take n [SettleSend 0 Rejects 200 202; SettleSend 0 Rejects 200 202;
                     SettleSend 0 Rejects 200 202]) sample_awaiting = Some s'
      ∧ isLoading s' = false
      ∧ sendTasks s' = [].
Proof.
  assert (Hl : isLoading sample_awaiting = true) by reflexivity.
  split; [exact sample_awaiting_reachable|]. split; [exact Hl|].
  exact (loading_always_clears sample_awaiting Rejects Rejects Rejects 200 202
           sample_awaiting_reachable Hl).
Defined.

Lemma turn_invocations_in_order_witness :
  mounted sample_idle = true
  ∧ isLoading sample_idle = false
  ∧ sendTasks sample_idle = []
  ∧ trim (turn_input (sample_turn "hello" 100)) ≠ EmptyString
  ∧ ∃ s',
      run (turn_events (sample_turn "hello" 100)) sample_idle = Some s'
      ∧ invoked s' = invoked sample_idle
          ++ [ saveMessage (sessionId sample_idle) (turn_user (sample_turn "hello" 100));
               geminiHealthChat "hello" (previousMessages (messages sample_idle));
               saveMessage (sessionId sample_idle) (turn_reply (sample_turn "hello" 100)) ].
Proof.
  assert (Hm : mounted sample_idle = true) by reflexivity.
  assert (Hl : isLoading sample_idle = false) by reflexivity.
  assert (Hs : sendTasks sample_idle = []) by reflexivity.
  assert (Hne : trim (turn_input (sample_turn "hello" 100)) ≠ EmptyString)
    by (vm_compute; discriminate).
  do 4 (split; [assumption|]).
  destruct (turn_invocations_in_order (sample_turn "hello" 100) sample_idle Hm Hl Hs Hne)
    as (s' & Hrun & Hinv & _).
  exists s'. split; [exact Hrun | exact Hinv].
Defined.

Lemma reply_text_or_fallback_witness :
  mounted sample_awaiting = true
  ∧ sendTasks sample_awaiting !! 0%nat = Some (handleSend_invoke "u1")
  ∧ ∃ s' reply,
      step (SettleSend 0 (Resolves false (Generation (Some EmptyString))) 200 202)
           sample_awaiting = Some s'
      ∧ messages s' = messages sample_awaiting ++ [reply]
      ∧ content reply = fallbackText.
Proof.
  assert (Hm : mounted sample_awaiting = true) by reflexivity.
  assert (Ht : sendTasks sample_awaiting !! 0%nat = Some (handleSend_invoke "u1"))
    by reflexivity.
  do 2 (split; [assumption|]).
  destruct (reply_text_or_fallback 0 "u1" (Some EmptyString) 200 202 sample_awaiting Hm Ht)
    as (s' & reply & Hstep & Hmsg & _ & _ & _ & _ & Hfallback & _).
  exists s', reply. split; [exact Hstep|]. split; [exact Hmsg|].
  apply Hfallback. right. reflexivity.
Defined.

Lemma transcript_messages_say_something_witness :
  hydrated sample_idle
  ∧ Forall said (messages sample_idle)
  ∧ run (turn_events (sample_turn "hello" 100)) sample_idle = Some sample_answered
  ∧ Forall said (messages sample_answered).
Proof.
  assert (Hsaid : Forall said (messages sample_idle)).
  { constructor; [|constructor]. unfold said. simpl. discriminate. }
  assert (Hrun : run (turn_events (sample_turn "hello" 100)) sample_idle
                 = Some sample_answered) by (vm_compute; reflexivity).
  split; [exact sample_idle_hydrated|]. split; [exact Hsaid|]. split; [exact Hrun|].
  exact (transcript_messages_say_something _ _ _ sample_idle_hydrated Hsaid Hrun).
Defined.

Lemma suggestions_gone_for_good_witness :
  hydrated sample_answered
  ∧ (1 < length (messages sample_answered))%nat
  ∧ run [ClickEndChat; SettleEnd Rejects] sample_answered
    = Some (after [ClickEndChat; SettleEnd Rejects] sample_answered)
  ∧ suggestions_shown (after [ClickEndChat; SettleEnd Rejects] sample_answered) = false.
Proof.
  assert (Hh : hydrated sample_answered).
  { split; [reflexivity|]. intros sid. vm_compute. discriminate. }
  assert (Hlen : (1 < length (messages sample_answered))%nat) by (vm_compute; lia).
  assert (Hrun : run [ClickEndChat; SettleEnd Rejects] sample_answered
                 = Some (after [ClickEndChat; SettleEnd Rejects] sample_answered))
    by (vm_compute; reflexivity).
  do 3 (split; [assumption|]).
  exact (proj1 (suggestions_gone_for_good _ _ _ Hh Hlen Hrun)).
Defined.

Lemma send_enabled_iff_something_typed_witness :
  isLoading sample_awaiting = true
  ∧ sendButton_disabled sample_awaiting = true.
Proof.
  assert (Hl : isLoading sample_awaiting = true) by reflexivity.
  split; [exact Hl|].
  apply (proj1 (send_enabled_iff_something_typed 0 0 sample_awaiting)).
  left. exact Hl.
Defined.

Lemma message_ids_follow_clock_witness :
  turn_now (sample_turn "hello" 100) ≤ turn_replyNow (sample_turn "hello" 100)
  ∧ id (turn_user (sample_turn "hello" 100)) ≠ id (turn_reply (sample_turn "hello" 100))
  ∧ id (turn_user (sample_turn "thanks" 201)) = id (turn_reply (sample_turn "hello" 100)).
Proof.
  assert (Hle : turn_now (sample_turn "hello" 100) ≤ turn_replyNow (sample_turn "hello" 100))
    by (vm_compute; discriminate).
  destruct (message_ids_follow_clock (sample_turn "hello" 100) (sample_turn "thanks" 201))
    as (_ & Hdiff & Hnext & _).
  split; [exact Hle|]. split; [exact (Hdiff Hle)|].
  apply Hnext. reflexivity.
Defined.

Lemma createSampleAppointment_always_reports_witness :
  SampleAppointmentsSetup.isCreated SampleAppointmentsSetup.mounted = false
  ∧ SampleAppointmentsSetup.isLoading
      (SampleAppointmentsSetup.createSampleAppointment sample_world
         SampleAppointmentsSetup.mounted) = false.
Proof.
  assert (Hnew : SampleAppointmentsSetup.isCreated SampleAppointmentsSetup.mounted = false)
    by reflexivity.
  split; [exact Hnew|].
  exact (proj1 (createSampleAppointment_always_reports sample_world
                  SampleAppointmentsSetup.mounted Hnew)).
Defined.

Lemma created_means_stored_witness :
  SampleAppointmentsSetup.isCreated SampleAppointmentsSetup.mounted = false
  ∧ SampleAppointmentsSetup.isCreated
      (SampleAppointmentsSetup.createSampleAppointment sample_world_user
         SampleAppointmentsSetup.mounted) = true
  ∧ SampleAppointmentsSetup.stored sample_world_user = true
  ∧ SampleAppointmentsSetup.isCreated
      (SampleAppointmentsSetup.createSampleAppointment sample_world
         SampleAppointmentsSetup.mounted) = false
  ∧ ∃ message userId,
      SampleAppointmentsSetup.signedOut sample_world
      = SampleAppointmentsSetup.Rejected message
      ∧ SampleAppointmentsSetup.sessionUser sample_world
        = SampleAppointmentsSetup.Resolved None
      ∧ SampleAppointmentsSetup.signedIn sample_world
        = SampleAppointmentsSetup.Resolved (false, Some userId).
Proof.
  assert (Hnew : SampleAppointmentsSetup.isCreated SampleAppointmentsSetup.mounted = false)
    by reflexivity.
  assert (Hyes : SampleAppointmentsSetup.isCreated
      (SampleAppointmentsSetup.createSampleAppointment sample_world_user
         SampleAppointmentsSetup.mounted) = true) by reflexivity.
  assert (Hno : SampleAppointmentsSetup.isCreated
      (SampleAppointmentsSetup.createSampleAppointment sample_world
         SampleAppointmentsSetup.mounted) = false) by reflexivity.
  assert (Hstored : SampleAppointmentsSetup.stored sample_world = true) by reflexivity.
  assert (Hsent : SampleAppointmentsSetup.inserts
      (SampleAppointmentsSetup.createSampleAppointment sample_world
         SampleAppointmentsSetup.mounted)
      ≠ SampleAppointmentsSetup.inserts SampleAppointmentsSetup.mounted)
    by (vm_compute; discriminate).
  split; [exact Hnew|]. split; [exact Hyes|]. split.
  { exact (proj1 (proj1 (created_means_stored sample_world_user
                           SampleAppointmentsSetup.mounted Hnew) Hyes)). }
  split; [exact Hno|].
  exact (proj2 (created_means_stored sample_world SampleAppointmentsSetup.mounted Hnew)
           Hno Hstored Hsent).
Defined.

Lemma sample_sign_in_only_when_signed_out_witness :
  SampleAppointmentsSetup.sessionUser sample_world_user
  = SampleAppointmentsSetup.Resolved (Some "user-7")
  ∧ SampleAppointmentsSetup.authCalls
      (SampleAppointmentsSetup.createSampleAppointment sample_world_user
         SampleAppointmentsSetup.mounted)
    = SampleAppointmentsSetup.authCalls SampleAppointmentsSetup.mounted
        ++ [SampleAppointmentsSetup.getSession].
Proof.
  assert (Huser : SampleAppointmentsSetup.sessionUser sample_world_user
                  = SampleAppointmentsSetup.Resolved (Some "user-7")) by reflexivity.
  split; [exact Huser|].
  exact (proj1 (proj1 (sample_sign_in_only_when_signed_out sample_world_user
                         SampleAppointmentsSetup.mounted) "user-7" Huser)).
Defined.

Lemma generated_slots_parse_to_their_time_witness :
  BookAppointment.generateTimeSlots (λ _, true) !! 13%nat
  = Some {| BookAppointment.time := "3:30 PM"; BookAppointment.available := true |}
  ∧ BookAppointment.appointmentClock "3:30 PM" = (Some 15, Some 30).
Proof.
  assert (Hslot : BookAppointment.generateTimeSlots (λ _, true) !! 13%nat
    = Some {| BookAppointment.time := "3:30 PM"; BookAppointment.available := true |})
    by reflexivity.
  split; [exact Hslot|].
  exact (proj1 (proj2 (generated_slots_parse_to_their_time (λ _, true)) 13%nat _ Hslot)).
Defined.

Lemma clock_label_parses_witness :
  1 ≤ 12 ≤ 12 ∧ 0 ≤ 5 ≤ 59
  ∧ BookAppointment.appointmentClock (BookAppointment.clockLabel 12 5 false)
    = (Some 0, Some 5).
Proof.
  assert (Hh : 1 ≤ 12 ≤ 12) by lia. assert (Hm : 0 ≤ 5 ≤ 59) by lia.
  split; [exact Hh|]. split; [exact Hm|].
  exact (clock_label_parses 12 5 false Hh Hm).
Defined.

Lemma fee_amount_of_plain_fee_witness :
  0 ≤ 500 ∧ 500 * 100 ≤ 2 ^ 53 ∧ BookAppointment.isDigit "$" = false
  ∧ BookAppointment.feeAmount "$500" = Some 500
  ∧ BookAppointment.totalAmount "video" "$500" = "$470".
Proof.
  assert (H0 : 0 ≤ 500) by lia.
  assert (H1 : 500 * 100 ≤ 2 ^ 53) by (vm_compute; discriminate).
  assert (H2 : BookAppointment.isDigit "$" = false) by reflexivity.
  destruct (fee_amount_of_plain_fee "$" 500 H0 H1 H2) as (Hfee & _ & _ & Hvideo & _).
  do 3 (split; [assumption|]). split; [exact Hfee | exact Hvideo].
Defined.
